(** * Container Analysis, Pub/Sub and Healthcare samples: a model and its properties

    The development embeds the Go functions of the container-analysis sample
    package ([createNote] ... [createOccurrenceSubscription]) and of the
    healthcare snippet ([deleteDataset]) as state-passing Rocq functions over
    an explicit [World]: the bytes written to the output sinks, the log of
    calls made on client handles, the messages acknowledged, and the state of
    the remote services.

    The client libraries are collaborators of the samples, not part of them;
    they enter as the fields of the class [Libraries] and of the client
    record [GrafeasV1Beta1Client]. *)

From Stdlib Require Import ZArith Ascii DecimalString.
From stdpp Require Import base tactics option list strings.
From Stdlib Require Import Lia.

Local Open Scope Z_scope.

(** ** Go values *)

Module Go.

(** [int] is 64 bits wide on the platforms the client libraries run on;
    [time.Duration] is an [int64] everywhere. *)
Definition int_bits : Z := 64.
Definition max_int : Z := 2 ^ (int_bits - 1) - 1.
Definition min_int : Z := - 2 ^ (int_bits - 1).

(** Two's-complement wrap-around of signed 64-bit arithmetic. *)
Definition wrap (z : Z) : Z :=
  (z + 2 ^ (int_bits - 1)) mod 2 ^ int_bits - 2 ^ (int_bits - 1).

Definition add (a b : Z) : Z := wrap (a + b).
Definition mul (a b : Z) : Z := wrap (a * b).

(** Non-nil error values.  An error is an interface value with an [Error()]
    method; two errors are [==] when they are the same object.
    - [iterator_Done] is the package-level sentinel [iterator.Done];
    - [LibError id msg] is an error object handed out by a client library,
      [id] standing for its identity;
    - [ErrorString msg] is the fresh object [fmt.Errorf] allocates when its
      format has no [%w] verb. *)
Inductive error_value : Type :=
  | iterator_Done
  | LibError (id : nat) (msg : string)
  | ErrorString (msg : string).

#[global] Instance error_value_eq_dec : EqDecision error_value.
Proof. solve_decision. Defined.

(** A Go [error]: [None] is [nil]. *)
Definition error : Type := option error_value.

Definition Error (e : error_value) : string :=
  match e with
  | iterator_Done => "no more items in iterator"
  | LibError _ msg => msg
  | ErrorString msg => msg
  end.

(** [err == iterator.Done] *)
Definition is_Done (err : error) : bool :=
  bool_decide (err = Some iterator_Done).

(** [err == nil] *)
Definition is_nil (err : error) : bool :=
  match err with None => true | Some _ => false end.

End Go.

(** ** Formatting: the fragment of package [fmt] the samples use *)

Module fmt.

Import Go.

Definition dquote : ascii := "034".
Definition backslash : ascii := "092".
Definition newline : ascii := "010".

Definition lowerhex (n : N) : ascii :=
  match n with
  | 0 => "0" | 1 => "1" | 2 => "2" | 3 => "3" | 4 => "4" | 5 => "5"
  | 6 => "6" | 7 => "7" | 8 => "8" | 9 => "9" | 10 => "a" | 11 => "b"
  | 12 => "c" | 13 => "d" | 14 => "e" | _ => "f"
  end%N%char.

(** [%d] on an [int]: decimal digits, a leading minus sign when negative. *)
Definition Itoa (n : Z) : string := NilZero.string_of_int (Z.to_int n).

Section Quote.

(** [strconv.Quote] walks its argument rune by rune and escapes each one
    on its own.  What it writes for an ASCII byte is fixed below.  What it
    writes from the first byte above 0x7f onwards depends on UTF-8 decoding
    and on the Unicode tables behind [unicode.IsPrint]; that part of the
    standard library is taken as a parameter: [quote_from_non_ascii s] is
    the escaped text of a remainder [s] whose first byte is not ASCII. *)
Variable quote_from_non_ascii : string -> string.

(** [appendEscapedRune] for a rune below [utf8.RuneSelf], with a double
    quote as the quote character and neither [ASCIIonly] nor
    [graphicOnly]. *)
Definition escape_ascii (c : ascii) : string :=
  let n := N_of_ascii c in
  if (n =? 34)%N || (n =? 92)%N then String backslash (String c "")
  else if (32 <=? n)%N && (n <? 127)%N then String c ""
  else if (n =? 7)%N then String backslash "a"
  else if (n =? 8)%N then String backslash "b"
  else if (n =? 12)%N then String backslash "f"
  else if (n =? 10)%N then String backslash "n"
  else if (n =? 13)%N then String backslash "r"
  else if (n =? 9)%N then String backslash "t"
  else if (n =? 11)%N then String backslash "v"
  else String backslash (String "x"
         (String (lowerhex (n / 16)) (String (lowerhex (n mod 16)) ""))).

Fixpoint quote_body (s : string) : string :=
  match s with
  | EmptyString => ""
  | String c rest =>
      if (N_of_ascii c <? 128)%N
      then escape_ascii c +:+ quote_body rest
      else quote_from_non_ascii s
  end.

(** [strconv.Quote], which is what the verb [%q] applies to a string. *)
Definition Quote (s : string) : string :=
  String dquote (quote_body s +:+ String dquote "").

(** Operands of a formatting call. *)
Inductive operand : Type :=
  | OStr (s : string)
  | OInt (n : Z)
  | OErr (e : error_value).

(** One verb applied to one operand.  [None] marks a combination outside
    the modelled fragment (Go would print a [%!verb(type=value)]
    diagnostic there). *)
Definition format_verb (verb : ascii) (o : operand) : option string :=
  match o with
  | OStr s =>
      if Ascii.eqb verb "s" || Ascii.eqb verb "v" then Some s
      else if Ascii.eqb verb "q" then Some (Quote s)
      else None
  | OInt n =>
      if Ascii.eqb verb "d" || Ascii.eqb verb "v" then Some (Itoa n)
      else None
  | OErr e =>
      if Ascii.eqb verb "s" || Ascii.eqb verb "v" then Some (Error e)
      else if Ascii.eqb verb "q" then Some (Quote (Error e))
      else None
  end.

(** The formatting loop of [doPrintf]: literal bytes are copied, [%%]
    writes a percent sign, [%] followed by a verb consumes the next
    operand.  Flags, widths, precisions and argument indexes are not
    modelled, nor are the diagnostics for missing or surplus operands:
    all of those yield [None]. *)
Fixpoint format (f : string) (a : list operand) : option string :=
  match f with
  | EmptyString => match a with [] => Some "" | _ :: _ => None end
  | String c rest =>
      if Ascii.eqb c "%" then
        match rest with
        | EmptyString => None
        | String verb rest' =>
            if Ascii.eqb verb "%" then String "%" <$> format rest' a
            else
              match a with
              | [] => None
              | o :: a' =>
                  match format_verb verb o, format rest' a' with
                  | Some x, Some y => Some (x +:+ y)
                  | _, _ => None
                  end
              end
        end
      else String c <$> format rest a
  end.

(** [fmt.Sprintf].  Every format string of the samples lies inside the
    modelled fragment (the lemmas [sprintf_project], [sprintf_note] and
    their like below compute each of them); outside it the model yields the
    empty string. *)
Definition Sprintf (f : string) (a : list operand) : string :=
  default "" (format f a).

(** [fmt.Errorf] with a format that has no [%w]: a fresh error object
    carrying the formatted message. *)
Definition Errorf (f : string) (a : list operand) : error_value :=
  ErrorString (Sprintf f a).

End Quote.

(** Values that [fmt.Println] can render: the [String()] method of a
    generated protocol-buffer message. *)
Class Stringer (A : Type) := String_ : A -> string.

(** [fmt.Sprintln] of one pointer operand: [<nil>] for a nil pointer, the
    message text otherwise, then a newline. *)
Definition Sprintln {A} `{Stringer A} (p : option A) : string :=
  match p with
  | None => "<nil>"
  | Some m => String_ m
  end +:+ String newline "".

(** [fmt.Sprintln] of one [int] operand. *)
Definition Sprintln_int (n : Z) : string := Itoa n +:+ String newline "".

End fmt.

(** ** Messages of the Container Analysis API

    Fields that the samples never set or read are left out. *)

Module vulnerability.

(** [vulnerability.Vulnerability{}] and [vulnerability.Details{}]: only the
    zero values are built. *)
Inductive Vulnerability : Type := Vulnerability_zero.
Inductive Details : Type := Details_zero.

End vulnerability.

Module grafeaspb.

Inductive isNote_Type : Type :=
  | Note_Vulnerability (Vulnerability : option vulnerability.Vulnerability).

Record Note : Type := {
  Note_Name : string;
  Note_Type : option isNote_Type;
}.

Record Resource : Type := { Resource_Uri : string }.

Inductive isOccurrence_Details : Type :=
  | Occurrence_Vulnerability (Vulnerability : option vulnerability.Details).

Record Occurrence : Type := {
  Occurrence_Name : string;
  Occurrence_NoteName : string;
  Occurrence_Resource : option Resource;
  Occurrence_Details : option isOccurrence_Details;
}.

Record CreateNoteRequest : Type := {
  CreateNoteRequest_Parent : string;
  CreateNoteRequest_NoteId : string;
  CreateNoteRequest_Note : option Note;
}.

Record CreateOccurrenceRequest : Type := {
  CreateOccurrenceRequest_Parent : string;
  CreateOccurrenceRequest_Occurrence : option Occurrence;
}.

Record UpdateNoteRequest : Type := {
  UpdateNoteRequest_Name : string;
  UpdateNoteRequest_Note : option Note;
}.

Record UpdateOccurrenceRequest : Type := {
  UpdateOccurrenceRequest_Name : string;
  UpdateOccurrenceRequest_Occurrence : option Occurrence;
}.

Record DeleteNoteRequest : Type := { DeleteNoteRequest_Name : string }.
Record DeleteOccurrenceRequest : Type := { DeleteOccurrenceRequest_Name : string }.
Record GetNoteRequest : Type := { GetNoteRequest_Name : string }.
Record GetOccurrenceRequest : Type := { GetOccurrenceRequest_Name : string }.

Record ListOccurrencesRequest : Type := {
  ListOccurrencesRequest_Parent : string;
  ListOccurrencesRequest_Filter : string;
}.

Record ListNoteOccurrencesRequest : Type := {
  ListNoteOccurrencesRequest_Name : string;
}.

End grafeaspb.

(** ** Pub/Sub values *)

Module pubsub.

(** [*pubsub.Message]: [Data] is the payload, a byte slice. *)
Record Message : Type := {
  Message_ID : string;
  Message_Data : string;
}.

(** [*pubsub.Topic] and [*pubsub.Subscription] are handles made locally
    from a client and an id ([client.Topic(id)], [client.Subscription(id)]);
    no request is sent to make one. *)
Record Topic (Client : Type) : Type := {
  Topic_client : Client;
  Topic_ID : string;
}.

Record Subscription (Client : Type) : Type := {
  Subscription_client : Client;
  Subscription_ID : string;
}.

Record SubscriptionConfig (Client : Type) : Type := {
  SubscriptionConfig_Topic : option (Topic Client);
}.

Arguments Topic_client {Client}.
Arguments Topic_ID {Client}.
Arguments Subscription_client {Client}.
Arguments Subscription_ID {Client}.
Arguments SubscriptionConfig_Topic {Client}.

(** What one run of [Subscription.Receive] brings: the messages handed to
    the callback, each in a goroutine of its own; the order in which the
    scheduler lets those goroutines take their steps (goroutine [i] runs
    the callback on message [i]); and the error [Receive] returns once the
    context is done and every callback has returned, [nil] when the deadline
    ended the session. *)
Record Session : Type := {
  delivered : list Message;
  schedule : list nat;
  receive_err : Go.error;
}.

End pubsub.

(** ** The client libraries

    Everything behind a client handle is a state machine over the state
    [Cloud] of the remote services: a method takes its request and the
    current state, and gives its Go results and the next state.  A handle
    returned together with a non-nil error is never looked at by the
    samples. *)

Class Libraries : Type := {
  Cloud : Type;

  (** the part of [strconv.Quote] that needs the Unicode tables *)
  quote_from_non_ascii : string -> string;

  (** [String()] of the generated messages *)
  Note_Stringer :: fmt.Stringer grafeaspb.Note;
  Occurrence_Stringer :: fmt.Stringer grafeaspb.Occurrence;

  (** [*containeranalysis.OccurrenceIterator] and its method [Next] *)
  OccurrenceIterator : Type;
  OccurrenceIterator_Next :
    OccurrenceIterator -> Cloud -> (option grafeaspb.Occurrence * Go.error) * Cloud;

  (** [*pubsub.Client], [pubsub.NewClient], [client.CreateSubscription] and
      [sub.Receive]; the deadline reaches [Receive] as the duration given
      to [context.WithTimeout] *)
  pubsub_Client : Type;
  pubsub_NewClient : string -> Cloud -> (pubsub_Client * Go.error) * Cloud;
  pubsub_CreateSubscription :
    pubsub_Client -> string -> pubsub.SubscriptionConfig pubsub_Client -> Cloud ->
    (option (pubsub.Subscription pubsub_Client) * Go.error) * Cloud;
  pubsub_Receive :
    pubsub.Subscription pubsub_Client -> Z -> Cloud -> pubsub.Session * Cloud;

  (** [*healthcare.Service], [healthcare.NewService] and
      [Projects.Locations.Datasets.Delete(name).Do()] *)
  healthcare_Service : Type;
  healthcare_NewService : Cloud -> (healthcare_Service * Go.error) * Cloud;
  healthcare_Datasets_Delete :
    healthcare_Service -> string -> Cloud -> (option unit * Go.error) * Cloud;
}.

(** A loop that has no bound of its own is run on fuel: [Returned r] when
    the function returns [r], [Running] when the fuel is used up first. *)
Inductive run (A : Type) : Type :=
  | Returned (r : A)
  | Running.
Arguments Returned {A} r.
Arguments Running {A}.

Section Samples.

Context `{Libraries}.

Import Go fmt grafeaspb.

(** [*containeranalysis.GrafeasV1Beta1Client]: the handle every Container
    Analysis sample receives from its caller. *)
Record GrafeasV1Beta1Client : Type := {
  CreateNote : CreateNoteRequest -> Cloud -> (option Note * error) * Cloud;
  CreateOccurrence : CreateOccurrenceRequest -> Cloud -> (option Occurrence * error) * Cloud;
  UpdateNote : UpdateNoteRequest -> Cloud -> (option Note * error) * Cloud;
  UpdateOccurrence : UpdateOccurrenceRequest -> Cloud -> (option Occurrence * error) * Cloud;
  DeleteNote : DeleteNoteRequest -> Cloud -> error * Cloud;
  DeleteOccurrence : DeleteOccurrenceRequest -> Cloud -> error * Cloud;
  GetNote : GetNoteRequest -> Cloud -> (option Note * error) * Cloud;
  GetOccurrence : GetOccurrenceRequest -> Cloud -> (option Occurrence * error) * Cloud;
  ListOccurrences : ListOccurrencesRequest -> Cloud -> OccurrenceIterator * Cloud;
  ListNoteOccurrences : ListNoteOccurrencesRequest -> Cloud -> OccurrenceIterator * Cloud;
}.

(** Calls made on handles and constructors, as the log records them. *)
Inductive Call : Type :=
  | Call_CreateNote (req : CreateNoteRequest)
  | Call_CreateOccurrence (req : CreateOccurrenceRequest)
  | Call_UpdateNote (req : UpdateNoteRequest)
  | Call_UpdateOccurrence (req : UpdateOccurrenceRequest)
  | Call_DeleteNote (req : DeleteNoteRequest)
  | Call_DeleteOccurrence (req : DeleteOccurrenceRequest)
  | Call_GetNote (req : GetNoteRequest)
  | Call_GetOccurrence (req : GetOccurrenceRequest)
  | Call_ListOccurrences (req : ListOccurrencesRequest)
  | Call_ListNoteOccurrences (req : ListNoteOccurrencesRequest)
  | Call_Next (it : OccurrenceIterator)
  | Call_pubsub_NewClient (projectID : string)
  | Call_CreateSubscription (client : pubsub_Client) (id : string)
      (cfg : pubsub.SubscriptionConfig pubsub_Client)
  | Call_Receive (sub : pubsub.Subscription pubsub_Client) (timeout : Z)
  | Call_healthcare_NewService
  | Call_Datasets_Delete (svc : healthcare_Service) (name : string).

(** ** The world a sample runs in *)

Record World : Type := {
  stdout : list string;          (** writes to standard output, oldest first *)
  written : list (nat * string); (** writes to [io.Writer] arguments *)
  calls : list Call;             (** calls made, oldest first *)
  acked : list pubsub.Message;   (** messages acknowledged, oldest first *)
  cloud : Cloud;                 (** state of the remote services *)
}.

Definition M (A : Type) : Type := World -> A * World.

#[global] Instance M_ret : MRet M := fun A a w => (a, w).
#[global] Instance M_bind : MBind M :=
  fun A B k m w => let (a, w') := m w in k a w'.

(** A call on a handle: logged, then answered by the library. *)
Definition invoke {R} (c : Call) (method : Cloud -> R * Cloud) : M R :=
  fun w =>
    let (r, cl) := method (cloud w) in
    (r, {| stdout := stdout w; written := written w;
           calls := calls w ++ [c]; acked := acked w; cloud := cl |}).

(** [fmt.Println(p)] for a message pointer [p]. *)
Definition Println {A} `{Stringer A} (p : option A) : M unit :=
  fun w =>
    (tt, {| stdout := stdout w ++ [Sprintln p]; written := written w;
            calls := calls w; acked := acked w; cloud := cloud w |}).

(** [fmt.Println(n)] for an [int]. *)
Definition Println_int (n : Z) : M unit :=
  fun w =>
    (tt, {| stdout := stdout w ++ [Sprintln_int n]; written := written w;
            calls := calls w; acked := acked w; cloud := cloud w |}).

(** [fmt.Fprintf(wr, format, a...)] *)
Definition Fprintf (wr : nat) (f : string) (a : list operand) : M unit :=
  fun w =>
    (tt, {| stdout := stdout w;
            written := written w ++ [(wr, Sprintf quote_from_non_ascii f a)];
            calls := calls w; acked := acked w; cloud := cloud w |}).

Definition sprintf := Sprintf quote_from_non_ascii.

(** ** The Container Analysis samples

    The [ctx] argument is handed on to the client unchanged and is left
    out. *)

(** createNote creates and returns a new vulnerability Note. *)
Definition createNote (client : GrafeasV1Beta1Client) (noteID projectID : string)
  : M (option Note * error) :=
  let projectName := sprintf "projects/%s" [OStr projectID] in
  let req := {|
    CreateNoteRequest_Parent := projectName;
    CreateNoteRequest_NoteId := noteID;
    CreateNoteRequest_Note := Some {|
      Note_Name := "";
      Note_Type := Some (Note_Vulnerability (Some vulnerability.Vulnerability_zero));
    |};
  |} in
  invoke (Call_CreateNote req) (CreateNote client req).

(** createOccurrence creates and returns a new Occurrence of a previously
    created vulnerability Note. *)
Definition createOccurrence (client : GrafeasV1Beta1Client)
    (imageURL noteID occProjectID noteProjectID : string)
  : M (option Occurrence * error) :=
  let req := {|
    CreateOccurrenceRequest_Parent := sprintf "projects/%s" [OStr occProjectID];
    CreateOccurrenceRequest_Occurrence := Some {|
      Occurrence_Name := "";
      Occurrence_NoteName :=
        sprintf "projects/%s/notes/%s" [OStr noteProjectID; OStr noteID];
      Occurrence_Resource := Some {| Resource_Uri := imageURL |};
      Occurrence_Details :=
        Some (Occurrence_Vulnerability (Some vulnerability.Details_zero));
    |};
  |} in
  invoke (Call_CreateOccurrence req) (CreateOccurrence client req).

(** updateNote pushes an update to a Note that already exists on the server. *)
Definition updateNote (client : GrafeasV1Beta1Client) (updated : option Note)
    (noteID projectID : string) : M (option Note * error) :=
  let req := {|
    UpdateNoteRequest_Name :=
      sprintf "projects/%s/notes/%s" [OStr projectID; OStr noteID];
    UpdateNoteRequest_Note := updated;
  |} in
  invoke (Call_UpdateNote req) (UpdateNote client req).

(** updateOccurrence pushes an update to an Occurrence that already exists
    on the server. *)
Definition updateOccurrence (client : GrafeasV1Beta1Client)
    (updated : option Occurrence) (occurrenceName : string)
  : M (option Occurrence * error) :=
  let req := {|
    UpdateOccurrenceRequest_Name := occurrenceName;
    UpdateOccurrenceRequest_Occurrence := updated;
  |} in
  invoke (Call_UpdateOccurrence req) (UpdateOccurrence client req).

(** deleteNote removes an existing Note from the server. *)
Definition deleteNote (client : GrafeasV1Beta1Client) (noteID projectID : string)
  : M error :=
  let req := {|
    DeleteNoteRequest_Name :=
      sprintf "projects/%s/notes/%s" [OStr projectID; OStr noteID];
  |} in
  invoke (Call_DeleteNote req) (DeleteNote client req).

(** deleteOccurrence removes an existing Occurrence from the server. *)
Definition deleteOccurrence (client : GrafeasV1Beta1Client) (occurrenceName : string)
  : M error :=
  let req := {| DeleteOccurrenceRequest_Name := occurrenceName |} in
  invoke (Call_DeleteOccurrence req) (DeleteOccurrence client req).

(** getNote retrieves and prints a specified Note from the server. *)
Definition getNote (client : GrafeasV1Beta1Client) (noteID projectID : string)
  : M (option Note * error) :=
  let req := {|
    GetNoteRequest_Name :=
      sprintf "projects/%s/notes/%s" [OStr projectID; OStr noteID];
  |} in
  '(note, err) ← invoke (Call_GetNote req) (GetNote client req);
  Println note;;
  mret (note, err).

(** getOccurrence retrieves and prints a specified Occurrence from the
    server. *)
Definition getOccurrence (client : GrafeasV1Beta1Client) (occurrenceName : string)
  : M (option Occurrence * error) :=
  let req := {| GetOccurrenceRequest_Name := occurrenceName |} in
  '(occ, err) ← invoke (Call_GetOccurrence req) (GetOccurrence client req);
  Println occ;;
  mret (occ, err).

(** The loop of getDiscoveryInfo (lines 163-172). *)
Fixpoint getDiscoveryInfo_loop (fuel : nat) (it : OccurrenceIterator)
  : M (run error) :=
  match fuel with
  | O => mret Running
  | S fuel' =>
      '(occ, err) ← invoke (Call_Next it) (OccurrenceIterator_Next it);
      if is_Done err then mret (Returned None)
      else if negb (is_nil err) then mret (Returned err)
      else Println occ;; getDiscoveryInfo_loop fuel' it
  end.

(** getDiscoveryInfo retrieves and prints the Discovery Occurrence created
    for a specified image.  Its only result is an [error]. *)
Definition getDiscoveryInfo (fuel : nat) (client : GrafeasV1Beta1Client)
    (imageURL projectID : string) : M (run error) :=
  let req := {|
    ListOccurrencesRequest_Parent := sprintf "projects/%s" [OStr projectID];
    ListOccurrencesRequest_Filter :=
      sprintf ("kind=" +:+ String dquote ("DISCOVERY" +:+
               String dquote " AND resourceUrl=%q")) [OStr imageURL];
  |} in
  it ← invoke (Call_ListOccurrences req) (ListOccurrences client req);
  getDiscoveryInfo_loop fuel it.

(** The loop of getOccurrencesForNote (lines 188-199). *)
Fixpoint getOccurrencesForNote_loop (fuel : nat) (it : OccurrenceIterator)
    (count : Z) : M (run (Z * error)) :=
  match fuel with
  | O => mret Running
  | S fuel' =>
      '(occ, err) ← invoke (Call_Next it) (OccurrenceIterator_Next it);
      if is_Done err then mret (Returned (count, None))
      else if negb (is_nil err) then mret (Returned (-1, err))
      else Println occ;; getOccurrencesForNote_loop fuel' it (Go.add count 1)
  end.

(** getOccurrencesForNote retrieves all the Occurrences associated with a
    specified Note.  Here, all Occurrences are printed and counted. *)
Definition getOccurrencesForNote (fuel : nat) (client : GrafeasV1Beta1Client)
    (noteID projectID : string) : M (run (Z * error)) :=
  let req := {|
    ListNoteOccurrencesRequest_Name :=
      sprintf "projects/%s/notes/%s" [OStr projectID; OStr noteID];
  |} in
  it ← invoke (Call_ListNoteOccurrences req) (ListNoteOccurrences client req);
  let count := 0 in
  getOccurrencesForNote_loop fuel it count.

(** The loop of getOccurrencesForImage (lines 216-227). *)
Fixpoint getOccurrencesForImage_loop (fuel : nat) (it : OccurrenceIterator)
    (count : Z) : M (run (Z * error)) :=
  match fuel with
  | O => mret Running
  | S fuel' =>
      '(occ, err) ← invoke (Call_Next it) (OccurrenceIterator_Next it);
      if is_Done err then mret (Returned (count, None))
      else if negb (is_nil err) then mret (Returned (-1, err))
      else Println occ;; getOccurrencesForImage_loop fuel' it (Go.add count 1)
  end.

(** getOccurrencesForImage retrieves all the Occurrences associated with a
    specified image.  Here, all Occurrences are simply printed and counted. *)
Definition getOccurrencesForImage (fuel : nat) (client : GrafeasV1Beta1Client)
    (imageURL projectID : string) : M (run (Z * error)) :=
  let req := {|
    ListOccurrencesRequest_Parent := sprintf "projects/%s" [OStr projectID];
    ListOccurrencesRequest_Filter := sprintf "resourceUrl=%q" [OStr imageURL];
  |} in
  it ← invoke (Call_ListOccurrences req) (ListOccurrences client req);
  let count := 0 in
  getOccurrencesForImage_loop fuel it count.


(** ** The Pub/Sub samples *)

(** The local variables of occurrencePubsub that its callback captures:
    the mutex [mu] ([true] when held) and [count]. *)
Record Frame : Type := { mu : bool; count : Z }.

(** Where a goroutine stands in the callback (lines 250-254).  The
    assignment [count = count + 1] is a read followed by a write; [tmp] is
    the value read. *)
Inductive pc : Type :=
  | at_Lock
  | at_load
  | at_store (tmp : Z)
  | at_Printf
  | at_Ack
  | at_Unlock
  | returned.

Definition write_stdout (s : string) (w : World) : World :=
  {| stdout := stdout w ++ [s]; written := written w;
     calls := calls w; acked := acked w; cloud := cloud w |}.

Definition record_ack (msg : pubsub.Message) (w : World) : World :=
  {| stdout := stdout w; written := written w;
     calls := calls w; acked := acked w ++ [msg]; cloud := cloud w |}.

(** The line the callback prints: [Message %d: %q\n]. *)
Definition message_line (n : Z) (msg : pubsub.Message) : string :=
  sprintf ("Message %d: %q" +:+ String newline "")
          [OInt n; OStr (pubsub.Message_Data msg)].

(** One step of the callback on [msg]; [None] when the goroutine cannot
    move: it waits for the mutex, or it has returned. *)
Definition callback_step (msg : pubsub.Message) (p : pc) (fr : Frame) (w : World)
  : option (pc * Frame * World) :=
  match p with
  | at_Lock =>
      if mu fr then None
      else Some (at_load, {| mu := true; count := count fr |}, w)
  | at_load => Some (at_store (count fr), fr, w)
  | at_store tmp =>
      Some (at_Printf, {| mu := mu fr; count := Go.add tmp 1 |}, w)
  | at_Printf =>
      Some (at_Ack, fr, write_stdout (message_line (count fr) msg) w)
  | at_Ack => Some (at_Unlock, fr, record_ack msg w)
  | at_Unlock => Some (returned, {| mu := false; count := count fr |}, w)
  | returned => None
  end.

(** A receive session under way: one goroutine per delivered message, each
    with the message it was started on. *)
Record Receiving : Type := {
  goroutines : list (pc * pubsub.Message);
  frame : Frame;
  world : World;
}.

(** The scheduler picks goroutine [i]; a pick that cannot move (or that
    names no goroutine) changes nothing. *)
Definition sched_step (r : Receiving) (i : nat) : Receiving :=
  match goroutines r !! i with
  | Some (p, msg) =>
      match callback_step msg p (frame r) (world r) with
      | Some (p', fr', w') =>
          {| goroutines := <[i:=(p', msg)]> (goroutines r);
             frame := fr'; world := w' |}
      | None => r
      end
  | None => r
  end.

Definition run_schedule (sched : list nat) (r : Receiving) : Receiving :=
  foldl sched_step r sched.

Definition is_returned (p : pc) : bool :=
  match p with returned => true | _ => false end.

Definition all_returned (g : list (pc * pubsub.Message)) : bool :=
  forallb (fun t => is_returned t.1) g.

(** [Receive] starts the callback once for each message it delivers. *)
Definition spawn (msgs : list pubsub.Message) : list (pc * pubsub.Message) :=
  map (fun msg => (at_Lock, msg)) msgs.

(** [time.Second], in nanoseconds. *)
Definition Second : Z := 1000000000.

(** [sub.Receive(toctx, callback)] with the callback of occurrencePubsub,
    started on the frame [fr].  [Receive] returns only when every callback
    has returned: a session whose schedule leaves a callback unfinished is
    [Running]. *)
Definition run_callbacks (session : pubsub.Session) (fr : Frame)
  : M (run (error * Frame)) :=
  fun w =>
    let r := run_schedule (pubsub.schedule session)
               {| goroutines := spawn (pubsub.delivered session);
                  frame := fr; world := w |} in
    if all_returned (goroutines r)
    then (Returned (pubsub.receive_err session, frame r), world r)
    else (Running, world r).

Definition Receive_callback (sub : pubsub.Subscription pubsub_Client)
    (d : Z) (fr : Frame) : M (run (error * Frame)) :=
  session ← invoke (Call_Receive sub d) (pubsub_Receive sub d);
  run_callbacks session fr.

(** occurrencePubsub handles incoming Occurrences using a Cloud Pub/Sub
    subscription.  [fr0] holds the zero mutex and [count := 0]; [toctx] is
    the context with the timeout, kept as its duration
    [time.Duration(timeout)*time.Second]; the deferred [cancel()] has no
    effect that the world records. *)
Definition occurrencePubsub (subscriptionID : string) (timeout : Z)
    (projectID : string) : M (run (Z * error)) :=
  '(client, err) ← invoke (Call_pubsub_NewClient projectID)
                          (pubsub_NewClient projectID);
  if negb (is_nil err) then mret (Returned (-1, err))
  else
    let sub := {| pubsub.Subscription_client := client;
                  pubsub.Subscription_ID := subscriptionID |} in
    let fr0 := {| mu := false; count := 0 |} in
    let toctx := Go.mul timeout Second in
    res ← Receive_callback sub toctx fr0;
    match res with
    | Running => mret Running
    | Returned (err, fr) =>
        if negb (is_nil err) then mret (Returned (-1, err))
        else
          Println_int (count fr);;
          mret (Returned (count fr, None))
    end.

(** createOccurrenceSubscription creates and returns a Pub/Sub subscription
    object listening to the Occurrence topic. *)
Definition createOccurrenceSubscription (subscriptionID projectID : string)
  : M error :=
  '(client, err) ← invoke (Call_pubsub_NewClient projectID)
                          (pubsub_NewClient projectID);
  if negb (is_nil err) then mret err
  else
    let topicID := "container-analysis-occurrences-v1beta1" in
    let topic := {| pubsub.Topic_client := client; pubsub.Topic_ID := topicID |} in
    let config := {| pubsub.SubscriptionConfig_Topic := Some topic |} in
    '(_, err) ← invoke (Call_CreateSubscription client subscriptionID config)
                       (pubsub_CreateSubscription client subscriptionID config);
    mret err.

(** ** The healthcare snippet *)

(** deleteDataset deletes the given dataset.  [wr] names the [io.Writer];
    [datasetsService] is a field of the service handle and is not kept
    apart from it. *)
Definition deleteDataset (wr : nat) (projectID location datasetID : string)
  : M error :=
  '(healthcareService, err) ← invoke Call_healthcare_NewService
                                     healthcare_NewService;
  match err with
  | Some e => mret (Some (Errorf quote_from_non_ascii "healthcare.New: %v" [OErr e]))
  | None =>
      let name := sprintf "projects/%s/locations/%s/datasets/%s"
                    [OStr projectID; OStr location; OStr datasetID] in
      '(_, err) ← invoke (Call_Datasets_Delete healthcareService name)
                         (healthcare_Datasets_Delete healthcareService name);
      match err with
      | Some e => mret (Some (Errorf quote_from_non_ascii "Delete: %v" [OErr e]))
      | None =>
          Fprintf wr ("Deleted dataset: %q" +:+ String newline "") [OStr name];;
          mret None
      end
  end.

End Samples.

(** ** A scripted stand-in for the client libraries

    The remote state is a script: the results the cursor still has to give,
    and the answers the constructors and the remote calls will give.  A
    cursor whose script is used up keeps answering [iterator.Done]. *)

Module Fake.

Import Go grafeaspb.

Record Script : Type := {
  cursor : list (option Occurrence * error);
  new_client_err : error;
  create_subscription_err : error;
  session : pubsub.Session;
  new_service_err : error;
  delete_err : error;
}.

Definition next (_ : unit) (s : Script) : (option Occurrence * error) * Script :=
  match cursor s with
  | [] => ((None, Some iterator_Done), s)
  | r :: rest =>
      (r, {| cursor := rest;
             new_client_err := new_client_err s;
             create_subscription_err := create_subscription_err s;
             session := session s;
             new_service_err := new_service_err s;
             delete_err := delete_err s |})
  end.

#[export] Instance libraries : Libraries := {|
  Cloud := Script;
  quote_from_non_ascii := fun s => s;
  Note_Stringer := Note_Name;
  Occurrence_Stringer := Occurrence_Name;
  OccurrenceIterator := unit;
  OccurrenceIterator_Next := next;
  pubsub_Client := string;
  pubsub_NewClient := fun projectID s => ((projectID, new_client_err s), s);
  pubsub_CreateSubscription := fun client id cfg s =>
    (match create_subscription_err s with
     | None => (Some {| pubsub.Subscription_client := client;
                        pubsub.Subscription_ID := id |}, None)
     | Some e => (None, Some e)
     end, s);
  pubsub_Receive := fun sub d s => (session s, s);
  healthcare_Service := unit;
  healthcare_NewService := fun s => ((tt, new_service_err s), s);
  healthcare_Datasets_Delete := fun svc name s =>
    (match delete_err s with
     | None => (Some tt, None)
     | Some e => (None, Some e)
     end, s);
|}.

(** A Container Analysis client that answers every unary call with the
    given note, occurrence and error, and hands out the scripted cursor. *)
Definition client (note : option Note) (occ : option Occurrence) (err : error)
  : GrafeasV1Beta1Client := {|
  CreateNote := fun _ s => ((note, err), s);
  CreateOccurrence := fun _ s => ((occ, err), s);
  UpdateNote := fun _ s => ((note, err), s);
  UpdateOccurrence := fun _ s => ((occ, err), s);
  DeleteNote := fun _ s => (err, s);
  DeleteOccurrence := fun _ s => (err, s);
  GetNote := fun _ s => ((note, err), s);
  GetOccurrence := fun _ s => ((occ, err), s);
  ListOccurrences := fun _ s => (tt, s);
  ListNoteOccurrences := fun _ s => (tt, s);
|}.

Definition occurrence (name : string) : Occurrence := {|
  Occurrence_Name := name;
  Occurrence_NoteName := "";
  Occurrence_Resource := None;
  Occurrence_Details := None;
|}.

Definition no_session : pubsub.Session :=
  {| pubsub.delivered := []; pubsub.schedule := []; pubsub.receive_err := None |}.

(** A world with nothing printed and nothing called yet. *)
Definition world (s : Script) : World :=
  {| stdout := []; written := []; calls := []; acked := []; cloud := s |}.

Definition quiet : Script := {|
  cursor := [];
  new_client_err := None;
  create_subscription_err := None;
  session := no_session;
  new_service_err := None;
  delete_err := None;
|}.

Definition with_cursor (c : list (option Occurrence * error)) : Script := {|
  cursor := c;
  new_client_err := None;
  create_subscription_err := None;
  session := no_session;
  new_service_err := None;
  delete_err := None;
|}.

Definition unavailable : error_value := LibError 14 "rpc error: code = Unavailable".
Definition failing : error := Some unavailable.

Definition o1 : option Occurrence := Some (occurrence "projects/p/occurrences/1").
Definition o2 : option Occurrence := Some (occurrence "projects/p/occurrences/2").

(** A cursor that hands out one occurrence, then fails, with one more
    occurrence behind the failure. *)
Definition broken_cursor : Script :=
  with_cursor [(o1, None); (None, failing); (o2, None)].

(** A cursor that hands out two occurrences and is then used up. *)
Definition short_cursor : Script := with_cursor [(o1, None); (o2, None)].

(** Scripts in which a constructor or a remote call fails. *)
Definition no_pubsub_client : Script := {|
  cursor := [];
  new_client_err := failing;
  create_subscription_err := None;
  session := no_session;
  new_service_err := None;
  delete_err := None;
|}.

Definition no_healthcare_service : Script := {|
  cursor := [];
  new_client_err := None;
  create_subscription_err := None;
  session := no_session;
  new_service_err := failing;
  delete_err := None;
|}.

Definition delete_refused : Script := {|
  cursor := [];
  new_client_err := None;
  create_subscription_err := None;
  session := no_session;
  new_service_err := None;
  delete_err := failing;
|}.

(** A session that delivers two messages; the scheduler picks the second
    goroutine twice while the first one holds the mutex. *)
Definition m1 : pubsub.Message :=
  {| pubsub.Message_ID := "1"; pubsub.Message_Data := "occurrence one" |}.
Definition m2 : pubsub.Message :=
  {| pubsub.Message_ID := "2"; pubsub.Message_Data := "occurrence two" |}.

Definition two_messages : Script := {|
  cursor := [];
  new_client_err := None;
  create_subscription_err := None;
  session := {|
    pubsub.delivered := [m1; m2];
    pubsub.schedule := [1; 0; 1; 0; 1; 1; 1; 1; 0; 0; 0; 0; 0; 0]%nat;
    pubsub.receive_err := None;
  |};
  new_service_err := None;
  delete_err := None;
|}.

(** A session in which [Receive] delivers one message and then returns an
    error. *)
Definition interrupted : Script := {|
  cursor := [];
  new_client_err := None;
  create_subscription_err := None;
  session := {|
    pubsub.delivered := [m1];
    pubsub.schedule := [0; 0; 0; 0; 0; 0]%nat;
    pubsub.receive_err := failing;
  |};
  new_service_err := None;
  delete_err := None;
|}.

End Fake.


(** ** A cursor without an end

    Libraries whose cursor hands out the same occurrence at every call and
    never reports the end of the stream; the remote state counts the calls
    of [Next]. *)

Module Endless.

Import Go grafeaspb.

Definition again : option Occurrence := Some (Fake.occurrence "projects/p/occurrences/again").

#[export] Instance libraries : Libraries := {|
  Cloud := nat;
  quote_from_non_ascii := fun s => s;
  Note_Stringer := Note_Name;
  Occurrence_Stringer := Occurrence_Name;
  OccurrenceIterator := unit;
  OccurrenceIterator_Next := fun _ n => ((again, None), S n);
  pubsub_Client := unit;
  pubsub_NewClient := fun _ n => (((), None), n);
  pubsub_CreateSubscription := fun _ _ _ n => ((None, None), n);
  pubsub_Receive := fun _ _ n => (Fake.no_session, n);
  healthcare_Service := unit;
  healthcare_NewService := fun n => (((), None), n);
  healthcare_Datasets_Delete := fun _ _ n => ((None, None), n);
|}.

Definition client : GrafeasV1Beta1Client := {|
  CreateNote := fun _ n => ((None, None), n);
  CreateOccurrence := fun _ n => ((None, None), n);
  UpdateNote := fun _ n => ((None, None), n);
  UpdateOccurrence := fun _ n => ((None, None), n);
  DeleteNote := fun _ n => (None, n);
  DeleteOccurrence := fun _ n => (None, n);
  GetNote := fun _ n => ((None, None), n);
  GetOccurrence := fun _ n => ((None, None), n);
  ListOccurrences := fun _ n => ((), n);
  ListNoteOccurrences := fun _ n => ((), n);
|}.

Definition world : World :=
  {| stdout := []; written := []; calls := []; acked := []; cloud := 0%nat |}.

End Endless.

(** ** Names as the specification writes them *)

Module Spec.

(** Note path: [projects/{p}/notes/{n}] *)
Definition note_path (p n : string) : string :=
  "projects/" +:+ p +:+ "/notes/" +:+ n.

(** The parent of the notes and occurrences of project [p]: [projects/{p}] *)
Definition project_path (p : string) : string := "projects/" +:+ p.

(** Dataset path: [projects/{p}/locations/{l}/datasets/{d}] *)
Definition dataset_path (p l d : string) : string :=
  "projects/" +:+ p +:+ "/locations/" +:+ l +:+ "/datasets/" +:+ d.

(** Fixed topic name *)
Definition occurrence_topic : string := "container-analysis-occurrences-v1beta1".

(** A string written between double quotes as it stands: ["<url>"] *)
Definition in_quotes (s : string) : string :=
  String fmt.dquote (s +:+ String fmt.dquote "").

(** List filters: [kind="DISCOVERY" AND resourceUrl="<url>"] and
    [resourceUrl="<url>"] *)
Definition discovery_filter (url : string) : string :=
  "kind=" +:+ in_quotes "DISCOVERY" +:+ " AND resourceUrl=" +:+ in_quotes url.

Definition image_filter (url : string) : string :=
  "resourceUrl=" +:+ in_quotes url.

(** A byte that [%q] copies as it stands: printable ASCII other than the
    double quote and the backslash. *)
Definition plain_byte (c : ascii) : bool :=
  let n := N_of_ascii c in
  ((32 <=? n) && (n <? 127) && negb (n =? 34) && negb (n =? 92))%N.

Fixpoint plain (s : string) : bool :=
  match s with
  | EmptyString => true
  | String c rest => plain_byte c && plain rest
  end.

(** Strings without a slash, and strings of ASCII bytes. *)
Fixpoint no_slash (s : string) : bool :=
  match s with
  | EmptyString => true
  | String c rest => negb (Ascii.eqb c "/") && no_slash rest
  end.

Fixpoint is_ascii (s : string) : bool :=
  match s with
  | EmptyString => true
  | String c rest => (N_of_ascii c <? 128)%N && is_ascii rest
  end.

(** Reading back the escapes that [%q] writes for ASCII bytes: the value
    of a hexadecimal digit, and the text between the quotes. *)
Definition hex_value (c : ascii) : option N :=
  let n := N_of_ascii c in
  if (48 <=? n)%N && (n <=? 57)%N then Some (n - 48)%N
  else if (97 <=? n)%N && (n <=? 102)%N then Some (n - 87)%N
  else None.

Definition simple_escape (c : ascii) : option ascii :=
  let n := N_of_ascii c in
  if (n =? 34)%N || (n =? 92)%N then Some c
  else if (n =? 97)%N then Some (ascii_of_N 7)
  else if (n =? 98)%N then Some (ascii_of_N 8)
  else if (n =? 102)%N then Some (ascii_of_N 12)
  else if (n =? 110)%N then Some (ascii_of_N 10)
  else if (n =? 114)%N then Some (ascii_of_N 13)
  else if (n =? 116)%N then Some (ascii_of_N 9)
  else if (n =? 118)%N then Some (ascii_of_N 11)
  else None.

Fixpoint unescape (s : string) : option string :=
  match s with
  | EmptyString => Some ""
  | String c rest =>
      if Ascii.eqb c fmt.backslash then
        match rest with
        | EmptyString => None
        | String e rest' =>
            if Ascii.eqb e "x" then
              match rest' with
              | String h1 (String h2 rest'') =>
                  match hex_value h1, hex_value h2, unescape rest'' with
                  | Some a, Some b, Some r =>
                      Some (String (ascii_of_N (16 * a + b)) r)
                  | _, _, _ => None
                  end
              | _ => None
              end
            else
              match simple_escape e, unescape rest' with
              | Some d, Some r => Some (String d r)
              | _, _ => None
              end
        end
      else String c <$> unescape rest
  end.

End Spec.

(** ** Cursors, results and sessions, as the properties read them *)

Section Observations.

Context `{Libraries}.

Import Go fmt grafeaspb.

(** [Yields it c xs e c']: started in remote state [c], calls of
    [it.Next()] hand out the elements [xs], each with a nil error; the
    call after the last of them returns the non-nil error [e] and leaves
    the remote state [c']. *)
Inductive Yields (it : OccurrenceIterator)
  : Cloud -> list (option Occurrence) -> error_value -> Cloud -> Prop :=
  | Yields_last c occ e c' :
      OccurrenceIterator_Next it c = ((occ, Some e), c') ->
      Yields it c [] e c'
  | Yields_more c occ c1 xs e c' :
      OccurrenceIterator_Next it c = ((occ, None), c1) ->
      Yields it c1 xs e c' ->
      Yields it c (occ :: xs) e c'.

(** The three paginated listing operations and their arguments. *)
Inductive listing : Type :=
  | DiscoveryInfo (imageURL projectID : string)
  | OccurrencesForNote (noteID projectID : string)
  | OccurrencesForImage (imageURL projectID : string).

(** What a listing operation hands back to its caller: the count, when the
    operation has a count among its results, and the error. *)
Record listing_result : Type := {
  result_count : option Z;
  result_err : error;
}.

Definition run_listing (fuel : nat) (client : GrafeasV1Beta1Client)
    (op : listing) : M (run listing_result) :=
  match op with
  | DiscoveryInfo imageURL projectID =>
      r ← getDiscoveryInfo fuel client imageURL projectID;
      mret (match r with
            | Returned err =>
                Returned {| result_count := None; result_err := err |}
            | Running => Running
            end)
  | OccurrencesForNote noteID projectID =>
      r ← getOccurrencesForNote fuel client noteID projectID;
      mret (match r with
            | Returned (n, err) =>
                Returned {| result_count := Some n; result_err := err |}
            | Running => Running
            end)
  | OccurrencesForImage imageURL projectID =>
      r ← getOccurrencesForImage fuel client imageURL projectID;
      mret (match r with
            | Returned (n, err) =>
                Returned {| result_count := Some n; result_err := err |}
            | Running => Running
            end)
  end.

(** "The operation returns the count [n] together with the error [err]." *)
Definition returns_count_and_error (r : run listing_result) (n : Z)
    (err : error) : Prop :=
  r = Returned {| result_count := Some n; result_err := err |}.

(** The list requests as the samples send them. *)
Definition discovery_request (imageURL projectID : string)
  : ListOccurrencesRequest := {|
  ListOccurrencesRequest_Parent := Spec.project_path projectID;
  ListOccurrencesRequest_Filter :=
    "kind=" +:+ Spec.in_quotes "DISCOVERY" +:+ " AND resourceUrl="
      +:+ Quote quote_from_non_ascii imageURL;
|}.

Definition image_request (imageURL projectID : string)
  : ListOccurrencesRequest := {|
  ListOccurrencesRequest_Parent := Spec.project_path projectID;
  ListOccurrencesRequest_Filter :=
    "resourceUrl=" +:+ Quote quote_from_non_ascii imageURL;
|}.

Definition note_request (noteID projectID : string)
  : ListNoteOccurrencesRequest := {|
  ListNoteOccurrencesRequest_Name := Spec.note_path projectID noteID;
|}.

(** The world after a listing that started in [w]: the list call [c], then
    the elements [xs] taken from the cursor [it] and printed one per line,
    then one more call of [Next], which ended the listing in remote state
    [c']. *)
Definition after_listing (w : World) (c : Call) (it : OccurrenceIterator)
    (xs : list (option Occurrence)) (c' : Cloud) : World := {|
  stdout := stdout w ++ (Sprintln <$> xs);
  written := written w;
  calls := calls w ++ c :: replicate (S (length xs)) (Call_Next it);
  acked := acked w;
  cloud := c';
|}.

(** The calls a sample adds to the log of [w]. *)
Definition new_calls (w w' : World) (cs : list Call) : Prop :=
  calls w' = calls w ++ cs.

Definition is_Datasets_Delete (c : Call) : bool :=
  match c with Call_Datasets_Delete _ _ => true | _ => false end.

Definition is_CreateSubscription (c : Call) : bool :=
  match c with Call_CreateSubscription _ _ _ => true | _ => false end.

(** "The sample makes the one call [call req] and hands back what the
    client answered": the result of the sample is the result of the method
    on the request that the log shows. *)
Definition hands_back {Req R : Type} (call : Req -> Call)
    (method : Req -> Cloud -> R * Cloud) (w : World) (r : R * World) : Prop :=
  exists req, new_calls w r.2 [call req] /\ r.1 = (method req (cloud w)).1.

(** [count] after [n] rounds of [count = count + 1]. *)
Definition counted (n : nat) (count : Z) : Z :=
  Nat.iter n (fun c => Go.add c 1) count.

(** The lines the callback of occurrencePubsub prints for the messages
    [msgs], handled in this order, when [count] stood at [from] before. *)
Fixpoint message_lines (from : Z) (msgs : list pubsub.Message) : list string :=
  match msgs with
  | [] => []
  | msg :: rest =>
      message_line (Go.add from 1) msg :: message_lines (Go.add from 1) rest
  end.

(** The lines [Message k: ...] for the messages [msgs], numbered from [k]
    on. *)
Fixpoint numbered_lines (k : Z) (msgs : list pubsub.Message) : list string :=
  match msgs with
  | [] => []
  | msg :: rest => message_line k msg :: numbered_lines (k + 1) rest
  end.

(** The line for the [k]-th message handled, written out byte by byte as
    the format [Message %d: %q\n] prescribes it: the word, the number in
    decimal, a colon and a space, the payload as [%q] writes it, a
    newline.  [message_texts k msgs] are these lines for [msgs], numbered
    from [k] on. *)
Definition message_text (k : Z) (msg : pubsub.Message) : string :=
  "Message " +:+ Itoa k +:+ ": "
    +:+ Quote quote_from_non_ascii (pubsub.Message_Data msg)
    +:+ String newline "".

Fixpoint message_texts (k : Z) (msgs : list pubsub.Message) : list string :=
  match msgs with
  | [] => []
  | msg :: rest => message_text k msg :: message_texts (k + 1) rest
  end.

(** The start of a receive session on the world [w]: the callbacks not yet
    begun, the mutex free, [count] at zero. *)
Definition session_start (session : pubsub.Session) (w : World) : Receiving := {|
  goroutines := spawn (pubsub.delivered session);
  frame := {| mu := false; count := 0 |};
  world := w;
|}.

(** "The receive primitive returns": the schedule of the session lets
    every callback run to its end. *)
Definition callbacks_return (session : pubsub.Session) (w : World) : Prop :=
  all_returned
    (goroutines (run_schedule (pubsub.schedule session) (session_start session w)))
  = true.

(** The messages whose callback has returned. *)
Fixpoint finished (g : list (pc * pubsub.Message)) : list pubsub.Message :=
  match g with
  | [] => []
  | (p, msg) :: g' =>
      if is_returned p then msg :: finished g' else finished g'
  end.

(** A goroutine outside the critical section: it has not taken the mutex
    yet, or it has given it back and returned. *)
Definition idle (t : pc * pubsub.Message) : Prop :=
  t.1 = at_Lock \/ t.1 = returned.

(** The schedule that runs the callbacks one after the other: goroutine 0
    through its six steps, then goroutine 1, and so on. *)
Definition sequential_schedule (n : nat) : list nat :=
  flat_map (fun i => replicate 6 i) (seq 0 n).

(** The loop of getDiscoveryInfo is the counting loop without the count. *)
Definition drop_count (r : run (Z * error)) : run error :=
  match r with
  | Returned (_, err) => Returned err
  | Running => Running
  end.

(** The configuration createOccurrenceSubscription builds for a client. *)
Definition occurrence_subscription_config (client : pubsub_Client)
  : pubsub.SubscriptionConfig pubsub_Client :=
  {| pubsub.SubscriptionConfig_Topic :=
       Some {| pubsub.Topic_client := client;
               pubsub.Topic_ID := Spec.occurrence_topic |} |}.

(** ** The receive session under the mutex

    The invariant of a receive session names the messages whose line has
    been printed, in the order of printing ([order]), and the messages
    acknowledged ([acks]), and says where the goroutine that holds the
    mutex stands. *)

(** What holds while a goroutine at [p], started on [msg], is inside the
    critical section; [done] are the messages of the callbacks that have
    returned, [acks] the messages acknowledged in this session. *)
Definition holding (p : pc) (msg : pubsub.Message) (fr : Frame)
    (order acks done : list pubsub.Message) : Prop :=
  match p with
  | at_load =>
      count fr = counted (length order) 0 /\ acks = order /\ order ≡ₚ done
  | at_store tmp =>
      tmp = counted (length order) 0 /\ acks = order /\ order ≡ₚ done
  | at_Printf =>
      count fr = counted (S (length order)) 0 /\ acks = order /\ order ≡ₚ done
  | at_Ack =>
      exists order', order = order' ++ [msg] /\
        count fr = counted (length order) 0 /\ acks = order' /\ order' ≡ₚ done
  | at_Unlock =>
      exists order', order = order' ++ [msg] /\
        count fr = counted (length order) 0 /\ acks = order /\ order' ≡ₚ done
  | at_Lock | returned => False
  end.

Record session_inv (w0 : World) (msgs : list pubsub.Message) (r : Receiving)
    (order acks : list pubsub.Message) : Prop := {
  inv_messages : (goroutines r).*2 = msgs;
  inv_stdout : stdout (world r) = stdout w0 ++ message_lines 0 order;
  inv_acked : acked (world r) = acked w0 ++ acks;
  inv_written : written (world r) = written w0;
  inv_calls : calls (world r) = calls w0;
  inv_cloud : cloud (world r) = cloud w0;
  inv_turn :
    (mu (frame r) = false /\ Forall idle (goroutines r) /\
     count (frame r) = counted (length order) 0 /\ acks = order /\
     order ≡ₚ finished (goroutines r))
    \/
    (mu (frame r) = true /\
     exists l1 p msg l2,
       goroutines r = l1 ++ (p, msg) :: l2 /\
       Forall idle l1 /\ Forall idle l2 /\
       holding p msg (frame r) order acks (finished (l1 ++ l2)));
}.

(** Which goroutine moves, and how [mu] and [count] change, does not depend
    on what has been printed or acknowledged. *)
Definition control (r : Receiving) : list (pc * pubsub.Message) * Frame :=
  (goroutines r, frame r).


(** ** Further observations on the samples *)

(** A sample step that leaves the output sinks and the acknowledgements as
    they were and adds exactly one call to the log. *)
Definition one_silent_call (w w' : World) : Prop :=
  stdout w' = stdout w /\ written w' = written w /\ acked w' = acked w /\
  length (calls w') = S (length (calls w)).

(** The remote state after [n] calls of [it.Next()], and the elements those
    calls hand out. *)
Fixpoint after_nexts (n : nat) (it : OccurrenceIterator) (c : Cloud) : Cloud :=
  match n with
  | O => c
  | S n' => after_nexts n' it (OccurrenceIterator_Next it c).2
  end.

Fixpoint first_elements (n : nat) (it : OccurrenceIterator) (c : Cloud)
  : list (option Occurrence) :=
  match n with
  | O => []
  | S n' =>
      (OccurrenceIterator_Next it c).1.1
      :: first_elements n' it (OccurrenceIterator_Next it c).2
  end.

(** A cursor that never stops: whatever the number of calls made before,
    the next call of [Next] returns a nil error. *)
Definition never_stops (it : OccurrenceIterator) (c : Cloud) : Prop :=
  forall n, (OccurrenceIterator_Next it (after_nexts n it c)).1.2 = None.

(** Where a goroutine is between [mu.Lock()] and [mu.Unlock()]. *)
Definition in_critical_section (p : pc) : bool :=
  match p with
  | at_Lock | returned => false
  | at_load | at_store _ | at_Printf | at_Ack | at_Unlock => true
  end.

(** The number of goroutines inside the critical section. *)
Fixpoint critical (g : list (pc * pubsub.Message)) : nat :=
  match g with
  | [] => 0
  | (p, _) :: g' => (if in_critical_section p then 1 else 0) + critical g'
  end.

(** "The cursor stops within [fuel] calls of [Next]", and "the run has
    returned". *)
Definition stops_within (it : OccurrenceIterator) (c : Cloud) (fuel : nat) : Prop :=
  exists xs e c', Yields it c xs e c' /\ (length xs < fuel)%nat.

Definition has_returned {A} (r : run A) : Prop := exists a, r = Returned a.

End Observations.

(** * Properties *)

Section Properties.

Context `{Libraries}.

Import Go fmt grafeaspb.

(** ** Formatting *)

Lemma string_app_assoc (a b c : string) : (a +:+ b) +:+ c = a +:+ (b +:+ c).
Proof.
  induction a as [|x a IH]; [reflexivity|].
  change (String x ((a +:+ b) +:+ c) = String x (a +:+ (b +:+ c))).
  by rewrite IH.
Qed.

Lemma string_app_nil_r (a : string) : a +:+ "" = a.
Proof.
  induction a as [|x a IH]; [reflexivity|].
  change (String x (a +:+ "") = String x a). by rewrite IH.
Qed.

Lemma string_length_app (a b : string) :
  String.length (a +:+ b) = (String.length a + String.length b)%nat.
Proof.
  induction a as [|x a IH]; [reflexivity|].
  change (S (String.length (a +:+ b)) = S (String.length a + String.length b)).
  by rewrite IH.
Qed.

(** Computing a formatting call on a literal format. *)
Ltac run_format :=
  unfold sprintf, Errorf, Sprintf;
  repeat match goal with
  | |- context [format _ ?f _] =>
      let f' := eval cbv in f in progress change f with f'
  end;
  cbv -[String.append Quote Error Itoa];
  rewrite ?string_app_nil_r; reflexivity.

Lemma sprintf_project (p : string) :
  sprintf "projects/%s" [OStr p] = Spec.project_path p.
Proof. run_format. Qed.

Lemma sprintf_note (p n : string) :
  sprintf "projects/%s/notes/%s" [OStr p; OStr n] = Spec.note_path p n.
Proof. run_format. Qed.

Lemma sprintf_dataset (p l d : string) :
  sprintf "projects/%s/locations/%s/datasets/%s" [OStr p; OStr l; OStr d]
  = Spec.dataset_path p l d.
Proof. run_format. Qed.

Lemma escape_plain_byte (c : ascii) :
  Spec.plain_byte c = true -> escape_ascii c = String c "".
Proof.
  unfold Spec.plain_byte, escape_ascii. cbv zeta.
  destruct (N_of_ascii c =? 34)%N, (N_of_ascii c =? 92)%N; simpl;
    rewrite ?andb_false_r; try discriminate.
  rewrite !andb_true_r. by intros ->.
Qed.

Lemma plain_byte_ascii (c : ascii) :
  Spec.plain_byte c = true -> (N_of_ascii c <? 128)%N = true.
Proof.
  unfold Spec.plain_byte. cbv zeta. intros Hc.
  apply N.ltb_lt.
  destruct (N.ltb_spec (N_of_ascii c) 127) as [Hlt|Hge]; [lia|].
  by rewrite andb_false_r in Hc.
Qed.

Lemma quote_body_plain (s : string) :
  Spec.plain s = true -> quote_body quote_from_non_ascii s = s.
Proof.
  induction s as [|c s IH]; [reflexivity|].
  simpl. intros [Hc Hs]%andb_true_iff.
  rewrite (plain_byte_ascii c Hc), (escape_plain_byte c Hc), (IH Hs).
  reflexivity.
Qed.

(** On a plain string [%q] adds the two quotes and nothing else. *)
Lemma Quote_plain (s : string) :
  Spec.plain s = true -> Quote quote_from_non_ascii s = Spec.in_quotes s.
Proof.
  intros Hs. unfold Quote, Spec.in_quotes. by rewrite quote_body_plain.
Qed.

Lemma sprintf_discovery_filter (url : string) :
  sprintf ("kind=" +:+ String dquote ("DISCOVERY" +:+
           String dquote " AND resourceUrl=%q")) [OStr url]
  = "kind=" +:+ Spec.in_quotes "DISCOVERY" +:+ " AND resourceUrl="
      +:+ Quote quote_from_non_ascii url.
Proof. run_format. Qed.

Lemma sprintf_image_filter (url : string) :
  sprintf "resourceUrl=%q" [OStr url]
  = "resourceUrl=" +:+ Quote quote_from_non_ascii url.
Proof. run_format. Qed.

Lemma Sprintf_deleted_line (name : string) :
  Sprintf quote_from_non_ascii ("Deleted dataset: %q" +:+ String newline "")
    [OStr name]
  = "Deleted dataset: " +:+ Quote quote_from_non_ascii name +:+ String newline "".
Proof. run_format. Qed.

Lemma Errorf_healthcare_New (e : error_value) :
  Errorf quote_from_non_ascii "healthcare.New: %v" [OErr e]
  = ErrorString ("healthcare.New: " +:+ Error e).
Proof. run_format. Qed.

Lemma Errorf_Delete (e : error_value) :
  Errorf quote_from_non_ascii "Delete: %v" [OErr e]
  = ErrorString ("Delete: " +:+ Error e).
Proof. run_format. Qed.

(** ** Samples that make one call *)

Lemma invoke_eq {R} (c : Call) (method : Cloud -> R * Cloud) (w : World)
    (r : R) (cl : Cloud) :
  method (cloud w) = (r, cl) ->
  invoke c method w =
    (r, {| stdout := stdout w; written := written w;
           calls := calls w ++ [c]; acked := acked w; cloud := cl |}).
Proof. intros Hm. unfold invoke. by rewrite Hm. Qed.

Lemma invoke_at {R} (c : Call) (method : Cloud -> R * Cloud)
    so wn cs ak (cl : Cloud) (r : R) (cl' : Cloud) :
  method cl = (r, cl') ->
  invoke c method
    {| stdout := so; written := wn; calls := cs; acked := ak; cloud := cl |} =
    (r, {| stdout := so; written := wn; calls := cs ++ [c];
           acked := ak; cloud := cl' |}).
Proof. intros Hm. unfold invoke. simpl. by rewrite Hm. Qed.

Lemma invoke_calls {R} (c : Call) (method : Cloud -> R * Cloud) (w : World) :
  calls (invoke c method w).2 = calls w ++ [c].
Proof. unfold invoke. by destruct (method (cloud w)). Qed.

Lemma invoke_fst {R} (c : Call) (method : Cloud -> R * Cloud) (w : World) :
  (invoke c method w).1 = (method (cloud w)).1.
Proof. unfold invoke. by destruct (method (cloud w)). Qed.

Lemma createNote_result client noteID projectID w :
  (createNote client noteID projectID w).1 =
  (CreateNote client
     {| CreateNoteRequest_Parent := Spec.project_path projectID;
        CreateNoteRequest_NoteId := noteID;
        CreateNoteRequest_Note := Some
          {| Note_Name := "";
             Note_Type := Some (Note_Vulnerability
                                  (Some vulnerability.Vulnerability_zero)) |} |}
     (cloud w)).1.
Proof. unfold createNote. by rewrite invoke_fst, sprintf_project. Qed.

Lemma createOccurrence_call client imageURL noteID occProjectID noteProjectID w :
  createOccurrence client imageURL noteID occProjectID noteProjectID w =
  let req := {|
    CreateOccurrenceRequest_Parent := Spec.project_path occProjectID;
    CreateOccurrenceRequest_Occurrence := Some {|
      Occurrence_Name := "";
      Occurrence_NoteName := Spec.note_path noteProjectID noteID;
      Occurrence_Resource := Some {| Resource_Uri := imageURL |};
      Occurrence_Details :=
        Some (Occurrence_Vulnerability (Some vulnerability.Details_zero)) |} |} in
  invoke (Call_CreateOccurrence req) (CreateOccurrence client req) w.
Proof. unfold createOccurrence. by rewrite sprintf_project, sprintf_note. Qed.

Lemma updateNote_call client updated noteID projectID w :
  updateNote client updated noteID projectID w =
  let req := {| UpdateNoteRequest_Name := Spec.note_path projectID noteID;
                UpdateNoteRequest_Note := updated |} in
  invoke (Call_UpdateNote req) (UpdateNote client req) w.
Proof. unfold updateNote. by rewrite sprintf_note. Qed.

Lemma deleteNote_call client noteID projectID w :
  deleteNote client noteID projectID w =
  let req := {| DeleteNoteRequest_Name := Spec.note_path projectID noteID |} in
  invoke (Call_DeleteNote req) (DeleteNote client req) w.
Proof. unfold deleteNote. by rewrite sprintf_note. Qed.

Lemma getNote_run client noteID projectID w note err cl :
  GetNote client {| GetNoteRequest_Name := Spec.note_path projectID noteID |}
    (cloud w) = ((note, err), cl) ->
  getNote client noteID projectID w =
    ((note, err),
     {| stdout := stdout w ++ [Sprintln note]; written := written w;
        calls := calls w ++
          [Call_GetNote {| GetNoteRequest_Name := Spec.note_path projectID noteID |}];
        acked := acked w; cloud := cl |}).
Proof.
  intros Hget. unfold getNote. rewrite sprintf_note.
  unfold mbind, M_bind. by rewrite (invoke_eq _ _ _ _ _ Hget).
Qed.

Lemma getOccurrence_run client occurrenceName w occ err cl :
  GetOccurrence client {| GetOccurrenceRequest_Name := occurrenceName |}
    (cloud w) = ((occ, err), cl) ->
  getOccurrence client occurrenceName w =
    ((occ, err),
     {| stdout := stdout w ++ [Sprintln occ]; written := written w;
        calls := calls w ++
          [Call_GetOccurrence {| GetOccurrenceRequest_Name := occurrenceName |}];
        acked := acked w; cloud := cl |}).
Proof.
  intros Hget. unfold getOccurrence.
  unfold mbind, M_bind. by rewrite (invoke_eq _ _ _ _ _ Hget).
Qed.

(** ** The listing loops *)

Lemma getOccurrencesForNote_loop_S fuel it count w :
  getOccurrencesForNote_loop (S fuel) it count w =
  let '((occ, err), w1) := invoke (Call_Next it) (OccurrenceIterator_Next it) w in
  if is_Done err then (Returned (count, None), w1)
  else if negb (is_nil err) then (Returned (-1, err), w1)
  else getOccurrencesForNote_loop fuel it (Go.add count 1) (Println occ w1).2.
Proof.
  simpl. unfold mbind, M_bind.
  destruct (invoke _ _ w) as [[occ err] w1].
  destruct (is_Done err); [reflexivity|].
  destruct (negb (is_nil err)); reflexivity.
Qed.

(** The two counting loops are the same loop. *)
Lemma getOccurrencesForImage_loop_eq fuel it count w :
  getOccurrencesForImage_loop fuel it count w
  = getOccurrencesForNote_loop fuel it count w.
Proof.
  revert count w. induction fuel as [|fuel IH]; intros count w; [reflexivity|].
  simpl. unfold mbind, M_bind.
  destruct (invoke _ _ w) as [[occ err] w1].
  destruct (is_Done err); [reflexivity|].
  destruct (negb (is_nil err)); [reflexivity|].
  destruct (Println occ w1) as [u w2]. apply IH.
Qed.

Lemma getDiscoveryInfo_loop_eq fuel it count w :
  getDiscoveryInfo_loop fuel it w =
  (drop_count (getOccurrencesForNote_loop fuel it count w).1,
   (getOccurrencesForNote_loop fuel it count w).2).
Proof.
  revert count w. induction fuel as [|fuel IH]; intros count w; [reflexivity|].
  simpl. unfold mbind, M_bind.
  destruct (invoke _ _ w) as [[occ err] w1].
  destruct (is_Done err); [reflexivity|].
  destruct (negb (is_nil err)); [reflexivity|].
  destruct (Println occ w1) as [u w2]. apply IH.
Qed.

Lemma counted_S n count : counted n (Go.add count 1) = counted (S n) count.
Proof. unfold counted. by rewrite Nat.iter_succ_r. Qed.

(** Additions that stay in the range of [int] do not wrap. *)
Lemma wrap_in_range z : Go.min_int <= z <= Go.max_int -> Go.wrap z = z.
Proof.
  unfold Go.wrap, Go.min_int, Go.max_int, Go.int_bits. intros Hz.
  rewrite Z.mod_small; lia.
Qed.

Lemma counted_in_range n count :
  0 <= count -> count + Z.of_nat n <= Go.max_int ->
  counted n count = count + Z.of_nat n.
Proof.
  unfold counted. induction n as [|n IH]; intros H0 Hn; simpl; [lia|].
  rewrite IH by lia. unfold Go.add. rewrite wrap_in_range; [lia|].
  unfold Go.min_int, Go.max_int, Go.int_bits in *. lia.
Qed.

(** What the counting loop does on a cursor that hands out [xs] and then
    stops with [e]: every element printed, one call of [Next] for each and
    one for [e], and then the return the loop has for [e]. *)
Lemma counting_loop_run it c xs e c' :
  Yields it c xs e c' ->
  forall fuel count w,
    cloud w = c -> (length xs < fuel)%nat ->
    getOccurrencesForNote_loop fuel it count w =
    (Returned (if decide (e = iterator_Done)
               then (counted (length xs) count, None)
               else (-1, Some e)),
     {| stdout := stdout w ++ (Sprintln <$> xs);
        written := written w;
        calls := calls w ++ replicate (S (length xs)) (Call_Next it);
        acked := acked w;
        cloud := c' |}).
Proof.
  induction 1 as [c occ e c' Hnext | c occ c1 xs e c' Hnext Hrest IH];
    intros fuel count w Hw Hfuel;
    (destruct fuel as [|fuel]; [simpl in Hfuel; lia|]);
    rewrite getOccurrencesForNote_loop_S; subst c;
    rewrite (invoke_eq _ _ _ _ _ Hnext).
  - unfold is_Done. destruct (decide (e = iterator_Done)) as [->|Hne].
    + rewrite bool_decide_true by done. simpl. by rewrite app_nil_r.
    + rewrite bool_decide_false by congruence. simpl. by rewrite app_nil_r.
  - unfold is_Done. rewrite bool_decide_false by discriminate. simpl negb.
    cbv iota. rewrite (IH fuel); [|reflexivity|simpl in Hfuel; lia].
    simpl. rewrite counted_S. f_equal. f_equal.
    + by rewrite <- app_assoc.
    + by rewrite <- app_assoc.
Qed.

(** Whatever the cursor does, the loop adds nothing to the log but calls of
    [Next]. *)
Lemma counting_loop_calls fuel it count w :
  exists k, calls (getOccurrencesForNote_loop fuel it count w).2
            = calls w ++ replicate k (Call_Next it).
Proof.
  revert count w. induction fuel as [|fuel IH]; intros count w.
  - exists 0%nat. simpl. by rewrite app_nil_r.
  - rewrite getOccurrencesForNote_loop_S.
    pose proof (invoke_calls (Call_Next it) (OccurrenceIterator_Next it) w) as Hc.
    destruct (invoke _ _ w) as [[occ err] w1]. simpl in Hc.
    destruct (is_Done err); [|destruct (negb (is_nil err))].
    + by exists 1%nat.
    + by exists 1%nat.
    + destruct (IH (Go.add count 1) (Println occ w1).2) as [k Hk].
      exists (S k). rewrite Hk. simpl. rewrite Hc. by rewrite <- app_assoc.
Qed.

Lemma getOccurrencesForNote_start fuel client noteID projectID w it c1 :
  ListNoteOccurrences client (note_request noteID projectID) (cloud w) = (it, c1) ->
  getOccurrencesForNote fuel client noteID projectID w =
  getOccurrencesForNote_loop fuel it 0
    {| stdout := stdout w; written := written w;
       calls := calls w ++ [Call_ListNoteOccurrences (note_request noteID projectID)];
       acked := acked w; cloud := c1 |}.
Proof.
  intros Hl. unfold getOccurrencesForNote. rewrite sprintf_note.
  unfold mbind, M_bind. fold (note_request noteID projectID).
  by rewrite (invoke_eq _ _ _ _ _ Hl).
Qed.

Lemma getOccurrencesForImage_start fuel client imageURL projectID w it c1 :
  ListOccurrences client (image_request imageURL projectID) (cloud w) = (it, c1) ->
  getOccurrencesForImage fuel client imageURL projectID w =
  getOccurrencesForNote_loop fuel it 0
    {| stdout := stdout w; written := written w;
       calls := calls w ++ [Call_ListOccurrences (image_request imageURL projectID)];
       acked := acked w; cloud := c1 |}.
Proof.
  intros Hl. unfold getOccurrencesForImage.
  rewrite sprintf_project, sprintf_image_filter.
  unfold mbind, M_bind. fold (image_request imageURL projectID).
  rewrite (invoke_eq _ _ _ _ _ Hl). apply getOccurrencesForImage_loop_eq.
Qed.

Lemma getDiscoveryInfo_start fuel client imageURL projectID w it c1 :
  ListOccurrences client (discovery_request imageURL projectID) (cloud w) = (it, c1) ->
  getDiscoveryInfo fuel client imageURL projectID w =
  getDiscoveryInfo_loop fuel it
    {| stdout := stdout w; written := written w;
       calls := calls w ++ [Call_ListOccurrences (discovery_request imageURL projectID)];
       acked := acked w; cloud := c1 |}.
Proof.
  intros Hl. unfold getDiscoveryInfo.
  rewrite sprintf_project, sprintf_discovery_filter.
  unfold mbind, M_bind. fold (discovery_request imageURL projectID).
  by rewrite (invoke_eq _ _ _ _ _ Hl).
Qed.

(** The three listings on a cursor that hands out [xs] and stops with [e]. *)
Lemma getOccurrencesForNote_run fuel client noteID projectID w it c1 xs e c' :
  ListNoteOccurrences client (note_request noteID projectID) (cloud w) = (it, c1) ->
  Yields it c1 xs e c' -> (length xs < fuel)%nat ->
  getOccurrencesForNote fuel client noteID projectID w =
  (Returned (if decide (e = iterator_Done)
             then (counted (length xs) 0, None) else (-1, Some e)),
   after_listing w (Call_ListNoteOccurrences (note_request noteID projectID))
     it xs c').
Proof.
  intros Hl Hy Hfuel. rewrite (getOccurrencesForNote_start _ _ _ _ _ _ _ Hl).
  rewrite (counting_loop_run _ _ _ _ _ Hy) by done.
  unfold after_listing. simpl. by rewrite <- app_assoc.
Qed.

Lemma getOccurrencesForImage_run fuel client imageURL projectID w it c1 xs e c' :
  ListOccurrences client (image_request imageURL projectID) (cloud w) = (it, c1) ->
  Yields it c1 xs e c' -> (length xs < fuel)%nat ->
  getOccurrencesForImage fuel client imageURL projectID w =
  (Returned (if decide (e = iterator_Done)
             then (counted (length xs) 0, None) else (-1, Some e)),
   after_listing w (Call_ListOccurrences (image_request imageURL projectID))
     it xs c').
Proof.
  intros Hl Hy Hfuel. rewrite (getOccurrencesForImage_start _ _ _ _ _ _ _ Hl).
  rewrite (counting_loop_run _ _ _ _ _ Hy) by done.
  unfold after_listing. simpl. by rewrite <- app_assoc.
Qed.

Lemma getDiscoveryInfo_run fuel client imageURL projectID w it c1 xs e c' :
  ListOccurrences client (discovery_request imageURL projectID) (cloud w) = (it, c1) ->
  Yields it c1 xs e c' -> (length xs < fuel)%nat ->
  getDiscoveryInfo fuel client imageURL projectID w =
  (Returned (if decide (e = iterator_Done) then None else Some e),
   after_listing w (Call_ListOccurrences (discovery_request imageURL projectID))
     it xs c').
Proof.
  intros Hl Hy Hfuel. rewrite (getDiscoveryInfo_start _ _ _ _ _ _ _ Hl).
  rewrite (getDiscoveryInfo_loop_eq _ _ 0).
  rewrite (counting_loop_run _ _ _ _ _ Hy) by done.
  unfold after_listing. simpl. rewrite <- app_assoc.
  by destruct (decide (e = iterator_Done)).
Qed.

(** ** Notes, listings and filters *)

(** C9. getNote and getOccurrence print the value they retrieved whatever
    the error is, and hand both back: after a GetNote (GetOccurrence) call
    that gave [(note, err)], one line with the text of [note] has gone to
    standard output and the result is [(note, err)]; when the call failed
    with a nil value, the line printed is [<nil>] and the caller gets the
    nil value and the error. *)
Theorem get_prints_before_looking_at_error
    (client : GrafeasV1Beta1Client) (noteID projectID occurrenceName : string)
    (w : World) (note : option Note) (occ : option Occurrence)
    (nerr oerr : error) (cl1 cl2 : Cloud) :
  GetNote client {| GetNoteRequest_Name := Spec.note_path projectID noteID |}
    (cloud w) = ((note, nerr), cl1) ->
  GetOccurrence client {| GetOccurrenceRequest_Name := occurrenceName |}
    (cloud w) = ((occ, oerr), cl2) ->
  let rn := getNote client noteID projectID w in
  let ro := getOccurrence client occurrenceName w in
  (rn.1 = (note, nerr) /\ stdout rn.2 = stdout w ++ [Sprintln note]) /\
  (ro.1 = (occ, oerr) /\ stdout ro.2 = stdout w ++ [Sprintln occ]) /\
  (note = None -> nerr <> None ->
     rn.1 = (None, nerr) /\
     stdout rn.2 = stdout w ++ ["<nil>" +:+ String newline ""]) /\
  (occ = None -> oerr <> None ->
     ro.1 = (None, oerr) /\
     stdout ro.2 = stdout w ++ ["<nil>" +:+ String newline ""]).
Proof.
  intros Hn Ho rn ro. subst rn ro.
  rewrite (getNote_run _ _ _ _ _ _ _ Hn), (getOccurrence_run _ _ _ _ _ _ Ho).
  simpl. repeat split; intros; subst; reflexivity.
Qed.

(** C4. Every operation that addresses a Note by [(projectID, noteID)]
    sends the name [projects/{projectID}/notes/{noteID}]: updateNote,
    deleteNote and getNote in the name of their one request,
    getOccurrencesForNote in the name of its list request (the only calls
    that follow are calls of the cursor), createOccurrence in the note
    reference of the occurrence it sends. *)
Theorem note_name_composed
    (client : GrafeasV1Beta1Client) (projectID noteID : string) (w : World) :
  (forall updated,
     new_calls w (updateNote client updated noteID projectID w).2
       [Call_UpdateNote
          {| UpdateNoteRequest_Name := Spec.note_path projectID noteID;
             UpdateNoteRequest_Note := updated |}]) /\
  new_calls w (deleteNote client noteID projectID w).2
    [Call_DeleteNote
       {| DeleteNoteRequest_Name := Spec.note_path projectID noteID |}] /\
  new_calls w (getNote client noteID projectID w).2
    [Call_GetNote {| GetNoteRequest_Name := Spec.note_path projectID noteID |}] /\
  (forall fuel, exists it k,
     new_calls w (getOccurrencesForNote fuel client noteID projectID w).2
       (Call_ListNoteOccurrences
          {| ListNoteOccurrencesRequest_Name := Spec.note_path projectID noteID |}
        :: replicate k (Call_Next it))) /\
  (forall imageURL occProjectID, exists occ,
     new_calls w
       (createOccurrence client imageURL noteID occProjectID projectID w).2
       [Call_CreateOccurrence
          {| CreateOccurrenceRequest_Parent := Spec.project_path occProjectID;
             CreateOccurrenceRequest_Occurrence := Some occ |}] /\
     Occurrence_NoteName occ = Spec.note_path projectID noteID).
Proof.
  split; [|split; [|split; [|split]]].
  - intros updated. rewrite updateNote_call. apply invoke_calls.
  - rewrite deleteNote_call. apply invoke_calls.
  - destruct (GetNote client
      {| GetNoteRequest_Name := Spec.note_path projectID noteID |} (cloud w))
      as [[note err] cl] eqn:Hget.
    by rewrite (getNote_run _ _ _ _ _ _ _ Hget).
  - intros fuel.
    destruct (ListNoteOccurrences client (note_request noteID projectID) (cloud w))
      as [it c1] eqn:Hl.
    rewrite (getOccurrencesForNote_start _ _ _ _ _ _ _ Hl).
    destruct (counting_loop_calls fuel it 0
      {| stdout := stdout w; written := written w;
         calls := calls w ++ [Call_ListNoteOccurrences (note_request noteID projectID)];
         acked := acked w; cloud := c1 |}) as [k Hk].
    exists it, k. unfold new_calls. rewrite Hk. simpl. by rewrite <- app_assoc.
  - intros imageURL occProjectID. rewrite createOccurrence_call. cbv zeta.
    eexists. split; [apply invoke_calls | reflexivity].
Qed.

(** C10. createOccurrence takes the parent of the occurrence from
    [occProjectID] and the note reference from [noteProjectID]: when the two
    differ, the occurrence it sends is created under
    [projects/{occProjectID}] and refers to the note
    [projects/{noteProjectID}/notes/{noteID}], which lies under another
    project path. *)
Theorem createOccurrence_two_projects
    (client : GrafeasV1Beta1Client)
    (imageURL noteID occProjectID noteProjectID : string) (w : World) :
  occProjectID <> noteProjectID ->
  exists occ,
    new_calls w
      (createOccurrence client imageURL noteID occProjectID noteProjectID w).2
      [Call_CreateOccurrence
         {| CreateOccurrenceRequest_Parent := Spec.project_path occProjectID;
            CreateOccurrenceRequest_Occurrence := Some occ |}] /\
    Occurrence_NoteName occ = Spec.note_path noteProjectID noteID /\
    Occurrence_Resource occ = Some {| Resource_Uri := imageURL |} /\
    Spec.project_path occProjectID <> Spec.project_path noteProjectID.
Proof.
  intros Hne. rewrite createOccurrence_call. cbv zeta. eexists.
  split; [apply invoke_calls|]. split; [reflexivity|]. split; [reflexivity|].
  unfold Spec.project_path. intros Heq. apply Hne.
  by apply (inj (String.app "projects/")) in Heq.
Qed.

(** C1, as the code has it.  When the cursor hands out [xs] and then fails
    with an error [e] other than [iterator.Done], each listing stops there:
    the elements handed out before are printed, [Next] is not called again,
    and the error comes back as it is. getOccurrencesForNote and
    getOccurrencesForImage return it next to the count [-1];
    getDiscoveryInfo, whose only result is the error, returns it alone. *)
Theorem listing_stops_at_error
    (client : GrafeasV1Beta1Client) (fuel : nat) (w : World)
    (xs : list (option Occurrence)) (e : error_value) (c' : Cloud) :
  e <> iterator_Done ->
  (length xs < fuel)%nat ->
  (forall noteID projectID it c1,
     ListNoteOccurrences client (note_request noteID projectID) (cloud w)
       = (it, c1) ->
     Yields it c1 xs e c' ->
     getOccurrencesForNote fuel client noteID projectID w =
       (Returned (-1, Some e),
        after_listing w
          (Call_ListNoteOccurrences (note_request noteID projectID)) it xs c')) /\
  (forall imageURL projectID it c1,
     ListOccurrences client (image_request imageURL projectID) (cloud w)
       = (it, c1) ->
     Yields it c1 xs e c' ->
     getOccurrencesForImage fuel client imageURL projectID w =
       (Returned (-1, Some e),
        after_listing w
          (Call_ListOccurrences (image_request imageURL projectID)) it xs c')) /\
  (forall imageURL projectID it c1,
     ListOccurrences client (discovery_request imageURL projectID) (cloud w)
       = (it, c1) ->
     Yields it c1 xs e c' ->
     getDiscoveryInfo fuel client imageURL projectID w =
       (Returned (Some e),
        after_listing w
          (Call_ListOccurrences (discovery_request imageURL projectID)) it xs c')).
Proof.
  intros Hne Hfuel. repeat split; intros ? ? it c1 Hl Hy.
  - rewrite (getOccurrencesForNote_run _ _ _ _ _ _ _ _ _ _ Hl Hy Hfuel).
    by rewrite decide_False.
  - rewrite (getOccurrencesForImage_run _ _ _ _ _ _ _ _ _ _ Hl Hy Hfuel).
    by rewrite decide_False.
  - rewrite (getDiscoveryInfo_run _ _ _ _ _ _ _ _ _ _ Hl Hy Hfuel).
    by rewrite decide_False.
Qed.

(** C2, as the code has it.  When the cursor hands out the [n] elements
    [xs] and then [iterator.Done], each listing prints one line per
    element, in the order of the cursor, and returns no error.
    getOccurrencesForNote and getOccurrencesForImage return the count [n]
    (a value of [int]); getDiscoveryInfo, which has no count among its
    results, returns the nil error alone. *)
Theorem listing_prints_and_counts
    (client : GrafeasV1Beta1Client) (fuel : nat) (w : World)
    (xs : list (option Occurrence)) (c' : Cloud) :
  Z.of_nat (length xs) <= Go.max_int ->
  (length xs < fuel)%nat ->
  (forall noteID projectID it c1,
     ListNoteOccurrences client (note_request noteID projectID) (cloud w)
       = (it, c1) ->
     Yields it c1 xs iterator_Done c' ->
     getOccurrencesForNote fuel client noteID projectID w =
       (Returned (Z.of_nat (length xs), None),
        after_listing w
          (Call_ListNoteOccurrences (note_request noteID projectID)) it xs c')) /\
  (forall imageURL projectID it c1,
     ListOccurrences client (image_request imageURL projectID) (cloud w)
       = (it, c1) ->
     Yields it c1 xs iterator_Done c' ->
     getOccurrencesForImage fuel client imageURL projectID w =
       (Returned (Z.of_nat (length xs), None),
        after_listing w
          (Call_ListOccurrences (image_request imageURL projectID)) it xs c')) /\
  (forall imageURL projectID it c1,
     ListOccurrences client (discovery_request imageURL projectID) (cloud w)
       = (it, c1) ->
     Yields it c1 xs iterator_Done c' ->
     getDiscoveryInfo fuel client imageURL projectID w =
       (Returned None,
        after_listing w
          (Call_ListOccurrences (discovery_request imageURL projectID)) it xs c')).
Proof.
  intros Hn Hfuel. repeat split; intros ? ? it c1 Hl Hy.
  - rewrite (getOccurrencesForNote_run _ _ _ _ _ _ _ _ _ _ Hl Hy Hfuel).
    rewrite decide_True by done. by rewrite counted_in_range by lia.
  - rewrite (getOccurrencesForImage_run _ _ _ _ _ _ _ _ _ _ Hl Hy Hfuel).
    rewrite decide_True by done. by rewrite counted_in_range by lia.
  - rewrite (getDiscoveryInfo_run _ _ _ _ _ _ _ _ _ _ Hl Hy Hfuel).
    by rewrite decide_True.
Qed.

(** C8, as the code has it.  The filter getDiscoveryInfo sends is
    [kind="DISCOVERY" AND resourceUrl=] followed by the image URL as the
    verb [%q] writes it, and the filter getOccurrencesForImage sends is
    [resourceUrl=] followed by the same; for an image URL made of printable
    ASCII bytes other than the double quote and the backslash, [%q] only
    adds the two quotes, and the filters are
    [kind="DISCOVERY" AND resourceUrl="<url>"] and [resourceUrl="<url>"]. *)
Theorem list_filters_quote_the_url
    (client : GrafeasV1Beta1Client) (fuel : nat)
    (imageURL projectID : string) (w : World) :
  (exists it k,
     new_calls w (getDiscoveryInfo fuel client imageURL projectID w).2
       (Call_ListOccurrences (discovery_request imageURL projectID)
        :: replicate k (Call_Next it))) /\
  (exists it k,
     new_calls w (getOccurrencesForImage fuel client imageURL projectID w).2
       (Call_ListOccurrences (image_request imageURL projectID)
        :: replicate k (Call_Next it))) /\
  (Spec.plain imageURL = true ->
     ListOccurrencesRequest_Filter (discovery_request imageURL projectID)
       = Spec.discovery_filter imageURL /\
     ListOccurrencesRequest_Filter (image_request imageURL projectID)
       = Spec.image_filter imageURL).
Proof.
  split; [|split].
  - destruct (ListOccurrences client (discovery_request imageURL projectID)
                (cloud w)) as [it c1] eqn:Hl.
    rewrite (getDiscoveryInfo_start _ _ _ _ _ _ _ Hl).
    rewrite (getDiscoveryInfo_loop_eq _ _ 0). simpl.
    match goal with |- context [getOccurrencesForNote_loop fuel it 0 ?w1] =>
      destruct (counting_loop_calls fuel it 0 w1) as [k Hk] end.
    exists it, k. unfold new_calls. rewrite Hk. simpl. by rewrite <- app_assoc.
  - destruct (ListOccurrences client (image_request imageURL projectID)
                (cloud w)) as [it c1] eqn:Hl.
    rewrite (getOccurrencesForImage_start _ _ _ _ _ _ _ Hl).
    match goal with |- context [getOccurrencesForNote_loop fuel it 0 ?w1] =>
      destruct (counting_loop_calls fuel it 0 w1) as [k Hk] end.
    exists it, k. unfold new_calls. rewrite Hk. simpl. by rewrite <- app_assoc.
  - intros Hplain. unfold Spec.discovery_filter, Spec.image_filter. simpl.
    by rewrite (Quote_plain _ Hplain).
Qed.


(** ** deleteDataset *)

Lemma deleteDataset_no_service wr projectID location datasetID w svc e c1 :
  healthcare_NewService (cloud w) = ((svc, Some e), c1) ->
  deleteDataset wr projectID location datasetID w =
    (Some (ErrorString ("healthcare.New: " +:+ Error e)),
     {| stdout := stdout w; written := written w;
        calls := calls w ++ [Call_healthcare_NewService];
        acked := acked w; cloud := c1 |}).
Proof.
  intros Hn. unfold deleteDataset, mbind, M_bind.
  rewrite (invoke_eq _ _ _ _ _ Hn). by rewrite Errorf_healthcare_New.
Qed.

Lemma deleteDataset_delete_fails wr projectID location datasetID w svc c1 res e c2 :
  healthcare_NewService (cloud w) = ((svc, None), c1) ->
  healthcare_Datasets_Delete svc
    (Spec.dataset_path projectID location datasetID) c1 = ((res, Some e), c2) ->
  deleteDataset wr projectID location datasetID w =
    (Some (ErrorString ("Delete: " +:+ Error e)),
     {| stdout := stdout w; written := written w;
        calls := calls w ++
          [Call_healthcare_NewService;
           Call_Datasets_Delete svc (Spec.dataset_path projectID location datasetID)];
        acked := acked w; cloud := c2 |}).
Proof.
  intros Hn Hd. unfold deleteDataset, mbind, M_bind.
  rewrite (invoke_eq _ _ _ _ _ Hn). cbv beta iota zeta.
  rewrite sprintf_dataset, (invoke_at _ _ _ _ _ _ _ _ _ Hd). simpl.
  by rewrite Errorf_Delete, <- app_assoc.
Qed.

Lemma deleteDataset_deletes wr projectID location datasetID w svc c1 res c2 :
  healthcare_NewService (cloud w) = ((svc, None), c1) ->
  healthcare_Datasets_Delete svc
    (Spec.dataset_path projectID location datasetID) c1 = ((res, None), c2) ->
  deleteDataset wr projectID location datasetID w =
    (None,
     {| stdout := stdout w;
        written := written w ++
          [(wr, "Deleted dataset: " +:+
                Quote quote_from_non_ascii
                  (Spec.dataset_path projectID location datasetID)
                +:+ String newline "")];
        calls := calls w ++
          [Call_healthcare_NewService;
           Call_Datasets_Delete svc (Spec.dataset_path projectID location datasetID)];
        acked := acked w; cloud := c2 |}).
Proof.
  intros Hn Hd. unfold deleteDataset, mbind, M_bind.
  rewrite (invoke_eq _ _ _ _ _ Hn). cbv beta iota zeta.
  rewrite sprintf_dataset, (invoke_at _ _ _ _ _ _ _ _ _ Hd).
  unfold Fprintf, mret, M_ret. simpl.
  by rewrite <- app_assoc, Sprintf_deleted_line.
Qed.

(** C5, as the code has it.  Once [healthcare.NewService] has given a
    service handle without error, deleteDataset makes exactly one delete
    call, on the name
    [projects/{projectID}/locations/{location}/datasets/{datasetID}], and
    when that call succeeds it reports the name on its writer and returns
    nil. *)
Theorem deleteDataset_one_delete
    (wr : nat) (projectID location datasetID : string) (w : World)
    (svc : healthcare_Service) (c1 : Cloud) :
  healthcare_NewService (cloud w) = ((svc, None), c1) ->
  let name := Spec.dataset_path projectID location datasetID in
  let r := deleteDataset wr projectID location datasetID w in
  new_calls w r.2 [Call_healthcare_NewService; Call_Datasets_Delete svc name] /\
  (forall res c2,
     healthcare_Datasets_Delete svc name c1 = ((res, None), c2) ->
     r.1 = None /\
     written r.2 = written w ++
       [(wr, "Deleted dataset: " +:+ Quote quote_from_non_ascii name
             +:+ String newline "")]).
Proof.
  intros Hn name r. subst name r.
  destruct (healthcare_Datasets_Delete svc
              (Spec.dataset_path projectID location datasetID) c1)
    as [[res [e|]] c2] eqn:Hd.
  - rewrite (deleteDataset_delete_fails _ _ _ _ _ _ _ _ _ _ Hn Hd).
    split; [reflexivity|]. intros ? ? [=].
  - rewrite (deleteDataset_deletes _ _ _ _ _ _ _ _ _ Hn Hd).
    split; [reflexivity|]. intros ? ? _. by split.
Qed.

(** ** createOccurrenceSubscription *)

Lemma createOccurrenceSubscription_no_client subscriptionID projectID w client e c1 :
  pubsub_NewClient projectID (cloud w) = ((client, Some e), c1) ->
  createOccurrenceSubscription subscriptionID projectID w =
    (Some e,
     {| stdout := stdout w; written := written w;
        calls := calls w ++ [Call_pubsub_NewClient projectID];
        acked := acked w; cloud := c1 |}).
Proof.
  intros Hn. unfold createOccurrenceSubscription, mbind, M_bind.
  by rewrite (invoke_eq _ _ _ _ _ Hn).
Qed.

Lemma createOccurrenceSubscription_run subscriptionID projectID w client c1 sub err c2 :
  pubsub_NewClient projectID (cloud w) = ((client, None), c1) ->
  pubsub_CreateSubscription client subscriptionID
    (occurrence_subscription_config client) c1 = ((sub, err), c2) ->
  createOccurrenceSubscription subscriptionID projectID w =
    (err,
     {| stdout := stdout w; written := written w;
        calls := calls w ++
          [Call_pubsub_NewClient projectID;
           Call_CreateSubscription client subscriptionID
             (occurrence_subscription_config client)];
        acked := acked w; cloud := c2 |}).
Proof.
  intros Hn Hc. unfold createOccurrenceSubscription, mbind, M_bind.
  rewrite (invoke_eq _ _ _ _ _ Hn). simpl.
  fold Spec.occurrence_topic. fold (occurrence_subscription_config client).
  rewrite (invoke_at _ _ _ _ _ _ _ _ _ Hc). simpl. by rewrite <- app_assoc.
Qed.

(** C7, as the code has it.  Once [pubsub.NewClient] has given a client
    without error, createOccurrenceSubscription makes exactly one
    create-subscription call, for [subscriptionID], and the topic in its
    configuration is the one named
    [container-analysis-occurrences-v1beta1] whatever the arguments are;
    the error of that call is the result. *)
Theorem subscription_bound_to_occurrence_topic
    (subscriptionID projectID : string) (w : World)
    (client : pubsub_Client) (c1 : Cloud) :
  pubsub_NewClient projectID (cloud w) = ((client, None), c1) ->
  let r := createOccurrenceSubscription subscriptionID projectID w in
  new_calls w r.2
    [Call_pubsub_NewClient projectID;
     Call_CreateSubscription client subscriptionID
       {| pubsub.SubscriptionConfig_Topic :=
            Some {| pubsub.Topic_client := client;
                    pubsub.Topic_ID := "container-analysis-occurrences-v1beta1" |} |}] /\
  r.1 = (pubsub_CreateSubscription client subscriptionID
           (occurrence_subscription_config client) c1).1.2.
Proof.
  intros Hn r. subst r.
  destruct (pubsub_CreateSubscription client subscriptionID
              (occurrence_subscription_config client) c1)
    as [[sub err] c2] eqn:Hc.
  rewrite (createOccurrenceSubscription_run _ _ _ _ _ _ _ _ Hn Hc).
  by split.
Qed.


(** ** The receive session

    The mutex makes the callbacks take turns, whatever the schedule. *)

Section Receive.

(** The world the session started in. *)
Variable w0 : World.

Lemma finished_app g1 g2 : finished (g1 ++ g2) = finished g1 ++ finished g2.
Proof.
  induction g1 as [|[p m] g1 IH]; [reflexivity|].
  simpl. destruct (is_returned p); simpl; by rewrite IH.
Qed.

Lemma finished_spawn msgs : finished (spawn msgs) = [].
Proof. induction msgs as [|m msgs IH]; [reflexivity | exact IH]. Qed.

Lemma idle_spawn msgs : Forall idle (spawn msgs).
Proof.
  induction msgs as [|m msgs IH]; constructor; [by left | exact IH].
Qed.

Lemma finished_all_returned g :
  all_returned g = true -> finished g = g.*2.
Proof.
  induction g as [|[p m] g IH]; [reflexivity|].
  unfold all_returned. simpl. intros [Hp Hg]%andb_true_iff.
  rewrite Hp. f_equal. by apply IH.
Qed.

Lemma message_lines_snoc from order msg :
  message_lines from (order ++ [msg]) =
  message_lines from order ++ [message_line (counted (S (length order)) from) msg].
Proof.
  revert from. induction order as [|m order IH]; intros from; [reflexivity|].
  cbn [message_lines app length]. by rewrite IH, counted_S.
Qed.

Lemma message_lines_in_range from msgs :
  0 <= from -> from + Z.of_nat (length msgs) <= Go.max_int ->
  message_lines from msgs = numbered_lines (from + 1) msgs.
Proof.
  revert from. induction msgs as [|m msgs IH]; intros from H0 Hn; [reflexivity|].
  simpl in *.
  assert (Go.add from 1 = from + 1) as ->.
  { unfold Go.add. apply wrap_in_range.
    unfold Go.min_int, Go.max_int, Go.int_bits in *. lia. }
  f_equal. apply IH; lia.
Qed.

Lemma session_inv_start session :
  session_inv w0 (pubsub.delivered session) (session_start session w0) [] [].
Proof.
  split; simpl; rewrite ?app_nil_r; try reflexivity.
  - unfold spawn. rewrite <- list_fmap_compose. apply list_fmap_id.
  - left. split; [reflexivity|]. split; [apply idle_spawn|].
    split; [reflexivity|]. split; [reflexivity|].
    by rewrite finished_spawn.
Qed.

Lemma insert_keeps_messages (g : list (pc * pubsub.Message)) i p p' msg :
  g !! i = Some (p, msg) -> (<[i:=(p', msg)]> g).*2 = g.*2.
Proof.
  intros Hi. rewrite list_fmap_insert. simpl.
  apply list_insert_id. by rewrite list_lookup_fmap, Hi.
Qed.

Lemma insert_holder (l1 l2 : list (pc * pubsub.Message)) t t' :
  <[length l1:=t']> (l1 ++ t :: l2) = l1 ++ t' :: l2.
Proof.
  replace (length l1) with (length l1 + 0)%nat by lia.
  by rewrite insert_app_r.
Qed.

(** A goroutine outside the critical section cannot move while the mutex
    is held. *)
Lemma idle_blocked p msg fr w :
  idle (p, msg) -> mu fr = true -> callback_step msg p fr w = None.
Proof. intros [Hp|Hp] Hmu; simpl in Hp; subst p; simpl; by rewrite ?Hmu. Qed.

Lemma counted_succ n c : counted (S n) c = Go.add (counted n c) 1.
Proof. reflexivity. Qed.

(** One pick of the scheduler keeps the invariant. *)
Lemma sched_step_inv msgs r i order acks :
  session_inv w0 msgs r order acks ->
  exists order' acks', session_inv w0 msgs (sched_step r i) order' acks'.
Proof.
  intros Hinv. unfold sched_step.
  destruct (goroutines r !! i) as [[p m]|] eqn:Hi; [|by eauto].
  destruct (callback_step m p (frame r) (world r)) as [[[p' fr'] w']|] eqn:Hs;
    [|by eauto].
  pose proof (insert_keeps_messages _ _ _ p' _ Hi) as Hkeep.
  destruct Hinv as [Hm Hout Hack Hwr Hcalls Hcloud Hturn].
  destruct Hturn as [(Hmu & Hidle & Hcount & Hacks & Hperm)
                    |(Hmu & l1 & p0 & m0 & l2 & Hg & Hl1 & Hl2 & Hhold)].
  - (* the mutex is free: only a goroutine at [mu.Lock()] can move *)
    destruct (Forall_lookup_1 _ _ _ _ Hidle Hi) as [Hp|Hp];
      simpl in Hp; subst p; simpl in Hs; [|discriminate].
    rewrite Hmu in Hs. injection Hs as <- <- <-.
    exists order, acks. split; simpl; try done; [congruence|].
    right. split; [done|].
    exists (take i (goroutines r)), at_load, m, (drop (S i) (goroutines r)).
    split; [apply insert_take_drop; by eapply lookup_lt_Some|].
    split; [by apply Forall_take|]. split; [by apply Forall_drop|].
    simpl. split; [done|]. split; [done|].
    rewrite Hperm, <- (take_drop_middle _ _ _ Hi) at 1.
    by rewrite !finished_app.
  - (* the mutex is held: only its holder can move *)
    rewrite Hg in Hi. apply lookup_app_Some in Hi as [Hi | [Hge Hi]].
    { rewrite (idle_blocked _ _ _ _ (Forall_lookup_1 _ _ _ _ Hl1 Hi) Hmu) in Hs.
      discriminate. }
    destruct (i - length l1)%nat as [|j] eqn:Hj; simpl in Hi.
    2:{ rewrite (idle_blocked _ _ _ _ (Forall_lookup_1 _ _ _ _ Hl2 Hi) Hmu) in Hs.
        discriminate. }
    injection Hi as <- <-.
    assert (i = length l1) as -> by lia.
    rewrite Hg, insert_holder in Hkeep |- *.
    destruct p0; simpl in Hs, Hhold; try done; injection Hs as <- <- <-.
    + (* the read of [count] *)
      destruct Hhold as (Hc & Ha & Hp).
      exists order, acks. split; simpl; try done; [congruence|].
      right. split; [done|]. exists l1, (at_store (count (frame r))), m0, l2.
      by repeat split.
    + (* the write of [count] *)
      destruct Hhold as (Hc & Ha & Hp).
      exists order, acks. split; simpl; try done; [congruence|].
      right. split; [done|]. exists l1, at_Printf, m0, l2.
      repeat split; try done. simpl. by rewrite Hc.
    + (* Printf *)
      destruct Hhold as (Hc & Ha & Hp).
      exists (order ++ [m0]), acks. split; simpl; try done; [congruence| |].
      { by rewrite Hout, message_lines_snoc, Hc, <- app_assoc. }
      right. split; [done|]. exists l1, at_Ack, m0, l2.
      repeat split; try done. simpl. exists order.
      repeat split; try done.
      rewrite Hc, length_app. simpl. by rewrite Nat.add_1_r.
    + (* Ack *)
      destruct Hhold as (order' & Ho & Hc & Ha & Hp).
      exists order, (acks ++ [m0]). split; simpl; try done; [congruence| |].
      { by rewrite Hack, <- app_assoc. }
      right. split; [done|]. exists l1, at_Unlock, m0, l2.
      repeat split; try done. simpl. exists order'.
      repeat split; try done. by rewrite Ha, Ho.
    + (* Unlock *)
      destruct Hhold as (order' & Ho & Hc & Ha & Hp).
      exists order, acks. split; simpl; try done; [congruence|].
      left. split; [done|]. split.
      { apply Forall_app. split; [done|]. constructor; [by right | done]. }
      split; [done|]. split; [done|].
      rewrite finished_app. simpl. rewrite Ho, Hp, finished_app.
      rewrite <- !Permutation_middle. by rewrite app_nil_r.
Qed.

Lemma run_schedule_inv msgs sched r order acks :
  session_inv w0 msgs r order acks ->
  exists order' acks', session_inv w0 msgs (run_schedule sched r) order' acks'.
Proof.
  revert r order acks. induction sched as [|i sched IH]; intros r order acks Hinv.
  - by exists order, acks.
  - destruct (sched_step_inv _ _ i _ _ Hinv) as (order1 & acks1 & Hinv1).
    exact (IH _ _ _ Hinv1).
Qed.

(** When every callback has returned, each delivered message has had its
    line printed and has been acknowledged, once, in one and the same
    order, and [count] has been increased once for each. *)
Lemma session_inv_end msgs r order acks :
  session_inv w0 msgs r order acks ->
  all_returned (goroutines r) = true ->
  order ≡ₚ msgs /\ acks = order /\
  count (frame r) = counted (length msgs) 0.
Proof.
  intros [Hm Hout Hack Hwr Hcalls Hcloud Hturn] Hall.
  destruct Hturn as [(Hmu & Hidle & Hcount & Hacks & Hperm)
                    |(Hmu & l1 & p0 & m0 & l2 & Hg & Hl1 & Hl2 & Hhold)].
  - rewrite (finished_all_returned _ Hall), Hm in Hperm.
    split; [done|]. split; [done|]. by rewrite Hcount, Hperm.
  - exfalso. rewrite Hg in Hall. unfold all_returned in Hall.
    rewrite forallb_app in Hall. apply andb_true_iff in Hall as [_ Hall].
    simpl in Hall. apply andb_true_iff in Hall as [Hp _].
    by destruct p0.
Qed.

End Receive.


(** ** occurrencePubsub *)

Lemma sched_step_control r r' i :
  control r = control r' -> control (sched_step r i) = control (sched_step r' i).
Proof.
  destruct r as [g fr w], r' as [g' fr' w']. unfold control. simpl.
  intros [= <- <-]. unfold sched_step. simpl.
  destruct (g !! i) as [[p m]|]; [|reflexivity].
  destruct p; simpl; try reflexivity. by destruct (mu fr).
Qed.

Lemma run_schedule_control sched r r' :
  control r = control r' ->
  control (run_schedule sched r) = control (run_schedule sched r').
Proof.
  revert r r'. induction sched as [|i sched IH]; intros r r' Hc; [done|].
  apply IH. by apply sched_step_control.
Qed.

Lemma callbacks_return_world session w w' :
  callbacks_return session w -> callbacks_return session w'.
Proof.
  unfold callbacks_return. intros Hr.
  assert (control (run_schedule (pubsub.schedule session) (session_start session w'))
          = control (run_schedule (pubsub.schedule session) (session_start session w)))
    as [= -> _]; [|done].
  by apply run_schedule_control.
Qed.

(** The sequential schedule lets every callback return. *)
Lemma sequential_schedule_runs msgs2 :
  forall l1 n w,
    all_returned l1 = true ->
    let r := run_schedule
               (flat_map (fun i => replicate 6 i) (seq (length l1) (length msgs2)))
               {| goroutines := l1 ++ spawn msgs2;
                  frame := {| mu := false; count := n |}; world := w |} in
    all_returned (goroutines r) = true.
Proof.
  induction msgs2 as [|m msgs2 IH]; intros l1 n w Hl1; simpl.
  - by rewrite app_nil_r.
  - unfold sched_step at 6. simpl. rewrite list_lookup_middle by done. simpl.
    rewrite insert_holder.
    unfold sched_step at 5. simpl. rewrite list_lookup_middle by done. simpl.
    rewrite insert_holder.
    unfold sched_step at 4. simpl. rewrite list_lookup_middle by done. simpl.
    rewrite insert_holder.
    unfold sched_step at 3. simpl. rewrite list_lookup_middle by done. simpl.
    rewrite insert_holder.
    unfold sched_step at 2. simpl. rewrite list_lookup_middle by done. simpl.
    rewrite insert_holder.
    unfold sched_step at 1. simpl. rewrite list_lookup_middle by done. simpl.
    rewrite insert_holder.
    rewrite (cons_middle (returned, m)), app_assoc.
    replace (S (length l1)) with (length (l1 ++ [(returned, m)]))
      by (rewrite length_app; simpl; lia).
    apply IH. unfold all_returned. rewrite forallb_app. simpl.
    by rewrite andb_true_r.
Qed.

Lemma sequential_schedule_returns msgs err w :
  callbacks_return
    {| pubsub.delivered := msgs;
       pubsub.schedule := sequential_schedule (length msgs);
       pubsub.receive_err := err |} w.
Proof.
  unfold callbacks_return, session_start, sequential_schedule. simpl.
  exact (sequential_schedule_runs msgs [] 0 w eq_refl).
Qed.

Lemma occurrencePubsub_no_client subscriptionID timeout projectID w client e c1 :
  pubsub_NewClient projectID (cloud w) = ((client, Some e), c1) ->
  occurrencePubsub subscriptionID timeout projectID w =
    (Returned (-1, Some e),
     {| stdout := stdout w; written := written w;
        calls := calls w ++ [Call_pubsub_NewClient projectID];
        acked := acked w; cloud := c1 |}).
Proof.
  intros Hn. unfold occurrencePubsub, mbind, M_bind.
  by rewrite (invoke_eq _ _ _ _ _ Hn).
Qed.

(** occurrencePubsub once the client is there and [Receive] has been given
    its session: the callbacks run, and the result follows the error of
    [Receive]. *)
Lemma occurrencePubsub_session subscriptionID timeout projectID w client c1 session c2 :
  let sub := {| pubsub.Subscription_client := client;
                pubsub.Subscription_ID := subscriptionID |} in
  let d := Go.mul timeout Second in
  pubsub_NewClient projectID (cloud w) = ((client, None), c1) ->
  pubsub_Receive sub d c1 = (session, c2) ->
  let w2 := {| stdout := stdout w; written := written w;
               calls := calls w ++ [Call_pubsub_NewClient projectID; Call_Receive sub d];
               acked := acked w; cloud := c2 |} in
  let r := run_schedule (pubsub.schedule session) (session_start session w2) in
  callbacks_return session w ->
  occurrencePubsub subscriptionID timeout projectID w =
    match pubsub.receive_err session with
    | Some e => (Returned (-1, Some e), world r)
    | None =>
        (Returned (count (frame r), None),
         write_stdout (Sprintln_int (count (frame r))) (world r))
    end.
Proof.
  intros sub d Hn Hr w2 r Hret.
  apply (callbacks_return_world _ _ w2) in Hret. unfold callbacks_return in Hret.
  unfold occurrencePubsub, Receive_callback, mbind, M_bind.
  rewrite (invoke_eq _ _ _ _ _ Hn). cbv beta iota zeta.
  change (negb (is_nil None)) with false. cbv beta iota.
  fold sub d. rewrite (invoke_at _ _ _ _ _ _ _ _ _ Hr).
  unfold run_callbacks. rewrite <- app_assoc. simpl app.
  fold w2. fold (session_start session w2). fold r. fold r in Hret.
  rewrite Hret. by destruct (pubsub.receive_err session).
Qed.

(** What the callback prints is the text of the line. *)
Lemma message_line_text (k : Z) (msg : pubsub.Message) :
  message_line k msg = message_text k msg.
Proof. unfold message_line, message_text. run_format. Qed.

Lemma numbered_lines_texts (k : Z) (msgs : list pubsub.Message) :
  numbered_lines k msgs = message_texts k msgs.
Proof.
  revert k. induction msgs as [|msg msgs IH]; intros k; [reflexivity|].
  simpl. by rewrite message_line_text, IH.
Qed.

(** C6. In a session of occurrencePubsub in which [Receive] delivers [n]
    messages, lets every callback return and then returns without error,
    each delivered message raises the counter by one, has the line
    [Message k: "data"] printed under the value [k] the counter has then
    (the lines are numbered 1, 2, ... [n], the payload stands as [%q]
    writes it) and is acknowledged, printing and acknowledging going in
    one and the same order; the operation then prints the count [n] on a
    line of its own and returns [n] with no error ([n] being a value of
    [int]). *)
Theorem occurrencePubsub_counts_each_message
    (subscriptionID : string) (timeout : Z) (projectID : string) (w : World)
    (client : pubsub_Client) (c1 : Cloud) (session : pubsub.Session) (c2 : Cloud) :
  let sub := {| pubsub.Subscription_client := client;
                pubsub.Subscription_ID := subscriptionID |} in
  let d := Go.mul timeout Second in
  let n := Z.of_nat (length (pubsub.delivered session)) in
  pubsub_NewClient projectID (cloud w) = ((client, None), c1) ->
  pubsub_Receive sub d c1 = (session, c2) ->
  callbacks_return session w ->
  pubsub.receive_err session = None ->
  n <= Go.max_int ->
  exists order,
    order ≡ₚ pubsub.delivered session /\
    occurrencePubsub subscriptionID timeout projectID w =
      (Returned (n, None),
       {| stdout := stdout w ++ message_texts 1 order
                      ++ [Itoa n +:+ String newline ""];
          written := written w;
          calls := calls w ++ [Call_pubsub_NewClient projectID; Call_Receive sub d];
          acked := acked w ++ order;
          cloud := c2 |}).
Proof.
  intros sub d n Hn Hr Hret Herr Hmax.
  rewrite (occurrencePubsub_session _ _ _ _ _ _ _ _ Hn Hr Hret), Herr.
  fold sub d.
  set (w2 := {| stdout := stdout w; written := written w;
                calls := calls w ++ [Call_pubsub_NewClient projectID; Call_Receive sub d];
                acked := acked w; cloud := c2 |}).
  apply (callbacks_return_world _ _ w2) in Hret. unfold callbacks_return in Hret.
  destruct (run_schedule_inv w2 _ (pubsub.schedule session) _ _ _
              (session_inv_start w2 session)) as (order & acks & Hinv).
  destruct (session_inv_end w2 _ _ _ _ Hinv Hret) as (Hperm & -> & Hcount).
  exists order. split; [done|]. rewrite <- numbered_lines_texts.
  rewrite Hcount, counted_in_range by lia. rewrite Z.add_0_l. fold n.
  destruct Hinv as [_ Hout Hack Hwr Hcalls Hcloud _].
  destruct (world _) as [so wn cs ak cl]. simpl in *. subst.
  unfold write_stdout. simpl.
  rewrite message_lines_in_range; [by rewrite <- app_assoc | lia |].
  rewrite Hperm. fold n. lia.
Qed.


(** ** Errors *)

(** The error [fmt.Errorf] makes from a prefix and the text of [e] is a new
    object, never [e] itself. *)
Lemma prefixed_error_is_new (prefix : string) (e : error_value) :
  prefix <> "" -> ErrorString (prefix +:+ Error e) <> e.
Proof.
  intros Hp Heq. destruct e as [|id msg|msg]; try discriminate.
  injection Heq as Heq. simpl in Heq.
  apply (f_equal String.length) in Heq. rewrite string_length_app in Heq.
  destruct prefix; [done|]. simpl in Heq. lia.
Qed.

Lemma occurrencePubsub_receive_error
    subscriptionID timeout projectID w client c1 session c2 e :
  pubsub_NewClient projectID (cloud w) = ((client, None), c1) ->
  pubsub_Receive {| pubsub.Subscription_client := client;
                    pubsub.Subscription_ID := subscriptionID |}
    (Go.mul timeout Second) c1 = (session, c2) ->
  callbacks_return session w ->
  pubsub.receive_err session = Some e ->
  (occurrencePubsub subscriptionID timeout projectID w).1 = Returned (-1, Some e).
Proof.
  intros Hn Hr Hret He.
  by rewrite (occurrencePubsub_session _ _ _ _ _ _ _ _ Hn Hr Hret), He.
Qed.

(** C3. Every operation hands the error of the client back to its caller as
    it is, except deleteDataset.  The samples that make one Container
    Analysis call return what that call returned; the listings return the
    error the cursor stopped with; the Pub/Sub samples return the error of
    [NewClient], of [Receive] or of [CreateSubscription].  deleteDataset
    alone returns another error: a new one, whose text is the text of the
    client's error behind a fixed prefix. *)
Theorem errors_come_back_unchanged (client : GrafeasV1Beta1Client) (w : World) :
  (forall noteID projectID,
     hands_back Call_CreateNote (CreateNote client) w
       (createNote client noteID projectID w)) /\
  (forall imageURL noteID occProjectID noteProjectID,
     hands_back Call_CreateOccurrence (CreateOccurrence client) w
       (createOccurrence client imageURL noteID occProjectID noteProjectID w)) /\
  (forall updated noteID projectID,
     hands_back Call_UpdateNote (UpdateNote client) w
       (updateNote client updated noteID projectID w)) /\
  (forall updated occurrenceName,
     hands_back Call_UpdateOccurrence (UpdateOccurrence client) w
       (updateOccurrence client updated occurrenceName w)) /\
  (forall noteID projectID,
     hands_back Call_DeleteNote (DeleteNote client) w
       (deleteNote client noteID projectID w)) /\
  (forall occurrenceName,
     hands_back Call_DeleteOccurrence (DeleteOccurrence client) w
       (deleteOccurrence client occurrenceName w)) /\
  (forall noteID projectID,
     hands_back Call_GetNote (GetNote client) w
       (getNote client noteID projectID w)) /\
  (forall occurrenceName,
     hands_back Call_GetOccurrence (GetOccurrence client) w
       (getOccurrence client occurrenceName w)) /\
  (forall fuel xs e c', e <> iterator_Done -> (length xs < fuel)%nat ->
     (forall noteID projectID it c1,
        ListNoteOccurrences client (note_request noteID projectID) (cloud w)
          = (it, c1) ->
        Yields it c1 xs e c' ->
        (getOccurrencesForNote fuel client noteID projectID w).1
          = Returned (-1, Some e)) /\
     (forall imageURL projectID it c1,
        ListOccurrences client (image_request imageURL projectID) (cloud w)
          = (it, c1) ->
        Yields it c1 xs e c' ->
        (getOccurrencesForImage fuel client imageURL projectID w).1
          = Returned (-1, Some e)) /\
     (forall imageURL projectID it c1,
        ListOccurrences client (discovery_request imageURL projectID) (cloud w)
          = (it, c1) ->
        Yields it c1 xs e c' ->
        (getDiscoveryInfo fuel client imageURL projectID w).1
          = Returned (Some e))) /\
  (forall subscriptionID timeout projectID pclient e c1,
     pubsub_NewClient projectID (cloud w) = ((pclient, Some e), c1) ->
     (occurrencePubsub subscriptionID timeout projectID w).1
       = Returned (-1, Some e) /\
     (createOccurrenceSubscription subscriptionID projectID w).1 = Some e) /\
  (forall subscriptionID timeout projectID pclient c1 session c2 e,
     pubsub_NewClient projectID (cloud w) = ((pclient, None), c1) ->
     pubsub_Receive {| pubsub.Subscription_client := pclient;
                       pubsub.Subscription_ID := subscriptionID |}
       (Go.mul timeout Second) c1 = (session, c2) ->
     callbacks_return session w ->
     pubsub.receive_err session = Some e ->
     (occurrencePubsub subscriptionID timeout projectID w).1
       = Returned (-1, Some e)) /\
  (forall subscriptionID projectID pclient c1 sub err c2,
     pubsub_NewClient projectID (cloud w) = ((pclient, None), c1) ->
     pubsub_CreateSubscription pclient subscriptionID
       (occurrence_subscription_config pclient) c1 = ((sub, err), c2) ->
     (createOccurrenceSubscription subscriptionID projectID w).1 = err) /\
  (forall wr projectID location datasetID svc e c1,
     healthcare_NewService (cloud w) = ((svc, Some e), c1) ->
     (deleteDataset wr projectID location datasetID w).1
       = Some (ErrorString ("healthcare.New: " +:+ Error e)) /\
     (deleteDataset wr projectID location datasetID w).1 <> Some e) /\
  (forall wr projectID location datasetID svc c1 res e c2,
     healthcare_NewService (cloud w) = ((svc, None), c1) ->
     healthcare_Datasets_Delete svc
       (Spec.dataset_path projectID location datasetID) c1 = ((res, Some e), c2) ->
     (deleteDataset wr projectID location datasetID w).1
       = Some (ErrorString ("Delete: " +:+ Error e)) /\
     (deleteDataset wr projectID location datasetID w).1 <> Some e).
Proof.
  repeat apply conj.
  - intros. eexists. split; [apply invoke_calls | apply invoke_fst].
  - intros. eexists. split; [apply invoke_calls | apply invoke_fst].
  - intros. eexists. split; [apply invoke_calls | apply invoke_fst].
  - intros. eexists. split; [apply invoke_calls | apply invoke_fst].
  - intros. eexists. split; [apply invoke_calls | apply invoke_fst].
  - intros. eexists. split; [apply invoke_calls | apply invoke_fst].
  - intros noteID projectID.
    exists {| GetNoteRequest_Name := Spec.note_path projectID noteID |}.
    destruct (GetNote client
      {| GetNoteRequest_Name := Spec.note_path projectID noteID |} (cloud w))
      as [[note err] cl] eqn:Hget.
    by rewrite (getNote_run _ _ _ _ _ _ _ Hget).
  - intros occurrenceName.
    exists {| GetOccurrenceRequest_Name := occurrenceName |}.
    destruct (GetOccurrence client
      {| GetOccurrenceRequest_Name := occurrenceName |} (cloud w))
      as [[occ err] cl] eqn:Hget.
    by rewrite (getOccurrence_run _ _ _ _ _ _ Hget).
  - intros fuel xs e c' Hne Hfuel. repeat apply conj.
    + intros noteID projectID it c1 Hl Hy.
      rewrite (getOccurrencesForNote_run _ _ _ _ _ _ _ _ _ _ Hl Hy) by done.
      by rewrite decide_False.
    + intros imageURL projectID it c1 Hl Hy.
      rewrite (getOccurrencesForImage_run _ _ _ _ _ _ _ _ _ _ Hl Hy) by done.
      by rewrite decide_False.
    + intros imageURL projectID it c1 Hl Hy.
      rewrite (getDiscoveryInfo_run _ _ _ _ _ _ _ _ _ _ Hl Hy) by done.
      by rewrite decide_False.
  - intros subscriptionID timeout projectID pclient e c1 Hn.
    rewrite (occurrencePubsub_no_client _ _ _ _ _ _ _ Hn).
    by rewrite (createOccurrenceSubscription_no_client _ _ _ _ _ _ Hn).
  - intros subscriptionID timeout projectID pclient c1 session c2 e Hn Hr Hret He.
    by apply (occurrencePubsub_receive_error _ _ _ _ _ _ _ _ _ Hn Hr).
  - intros subscriptionID projectID pclient c1 sub err c2 Hn Hc.
    by rewrite (createOccurrenceSubscription_run _ _ _ _ _ _ _ _ Hn Hc).
  - intros wr projectID location datasetID svc e c1 Hn.
    rewrite (deleteDataset_no_service _ _ _ _ _ _ _ _ Hn). simpl.
    split; [done|].
    intros [= Heq]. by apply (prefixed_error_is_new "healthcare.New: " e).
  - intros wr projectID location datasetID svc c1 res e c2 Hn Hd.
    rewrite (deleteDataset_delete_fails _ _ _ _ _ _ _ _ _ _ Hn Hd). simpl.
    split; [done|].
    intros [= Heq]. by apply (prefixed_error_is_new "Delete: " e).
Qed.

End Properties.


(** * Further properties of the samples *)

Section Further.

Context `{Libraries}.

Import Go fmt grafeaspb.

(** ** The samples that make one call *)

Lemma invoke_one_silent_call {R} (c : Call) (method : Cloud -> R * Cloud) w :
  one_silent_call w (invoke c method w).2.
Proof.
  unfold one_silent_call, invoke. destruct (method (cloud w)) as [r cl]. simpl.
  repeat split. rewrite length_app. simpl. lia.
Qed.

(** X1. createNote, createOccurrence, updateNote, updateOccurrence,
    deleteNote and deleteOccurrence make one call and no second one,
    whatever the call returns, and print nothing: standard output, the
    writers and the acknowledgements are as before, and the log is one call
    longer. *)
Theorem one_call_samples_are_silent (client : GrafeasV1Beta1Client) (w : World) :
  (forall noteID projectID,
     one_silent_call w (createNote client noteID projectID w).2) /\
  (forall imageURL noteID occProjectID noteProjectID,
     one_silent_call w
       (createOccurrence client imageURL noteID occProjectID noteProjectID w).2) /\
  (forall updated noteID projectID,
     one_silent_call w (updateNote client updated noteID projectID w).2) /\
  (forall updated occurrenceName,
     one_silent_call w (updateOccurrence client updated occurrenceName w).2) /\
  (forall noteID projectID,
     one_silent_call w (deleteNote client noteID projectID w).2) /\
  (forall occurrenceName,
     one_silent_call w (deleteOccurrence client occurrenceName w).2).
Proof. repeat split; intros; apply invoke_one_silent_call. Qed.

(** X2. createNote sends the note id on its own, next to the parent
    [projects/{projectID}], and a note of the vulnerability kind; the
    operations that address an Occurrence by name (updateOccurrence,
    deleteOccurrence, getOccurrence) send the name as it was given, and
    updateOccurrence the payload as it was given. *)
Theorem requests_of_createNote_and_by_occurrence_name
    (client : GrafeasV1Beta1Client) (w : World) :
  (forall noteID projectID,
     new_calls w (createNote client noteID projectID w).2
       [Call_CreateNote
          {| CreateNoteRequest_Parent := Spec.project_path projectID;
             CreateNoteRequest_NoteId := noteID;
             CreateNoteRequest_Note := Some
               {| Note_Name := "";
                  Note_Type := Some (Note_Vulnerability
                    (Some vulnerability.Vulnerability_zero)) |} |}]) /\
  (forall updated occurrenceName,
     new_calls w (updateOccurrence client updated occurrenceName w).2
       [Call_UpdateOccurrence
          {| UpdateOccurrenceRequest_Name := occurrenceName;
             UpdateOccurrenceRequest_Occurrence := updated |}]) /\
  (forall occurrenceName,
     new_calls w (deleteOccurrence client occurrenceName w).2
       [Call_DeleteOccurrence {| DeleteOccurrenceRequest_Name := occurrenceName |}]) /\
  (forall occurrenceName,
     new_calls w (getOccurrence client occurrenceName w).2
       [Call_GetOccurrence {| GetOccurrenceRequest_Name := occurrenceName |}]).
Proof.
  repeat split; intros.
  - unfold createNote. rewrite sprintf_project. apply invoke_calls.
  - apply invoke_calls.
  - apply invoke_calls.
  - destruct (GetOccurrence client
      {| GetOccurrenceRequest_Name := occurrenceName |} (cloud w))
      as [[occ err] cl] eqn:Hget.
    by rewrite (getOccurrence_run _ _ _ _ _ _ Hget).
Qed.

(** ** Names that the samples compose *)

(** Two texts that agree after a slash-free head and a slash agree in the
    head and in the rest. *)
Lemma split_at_first_slash (a b r1 r2 : string) :
  Spec.no_slash a = true -> Spec.no_slash b = true ->
  a +:+ String "/" r1 = b +:+ String "/" r2 -> a = b /\ r1 = r2.
Proof.
  revert b. induction a as [|x a IH]; intros [|y b] Ha Hb Heq.
  - by injection Heq as ->.
  - injection Heq as <- _. simpl in Hb. discriminate.
  - injection Heq as -> _. simpl in Ha. discriminate.
  - change (String x (a +:+ String "/" r1) = String y (b +:+ String "/" r2)) in Heq.
    injection Heq as -> Heq. simpl in Ha, Hb.
    apply andb_true_iff in Ha as [_ Ha]. apply andb_true_iff in Hb as [_ Hb].
    destruct (IH b Ha Hb Heq) as [-> ->]. done.
Qed.

Lemma note_path_inj p1 n1 p2 n2 :
  Spec.no_slash p1 = true -> Spec.no_slash p2 = true ->
  Spec.note_path p1 n1 = Spec.note_path p2 n2 -> p1 = p2 /\ n1 = n2.
Proof.
  unfold Spec.note_path. intros H1 H2 Heq.
  apply (inj (String.app "projects/")) in Heq.
  change (p1 +:+ String "/" ("notes/" +:+ n1)
          = p2 +:+ String "/" ("notes/" +:+ n2)) in Heq.
  destruct (split_at_first_slash _ _ _ _ H1 H2 Heq) as [-> Hn].
  by apply (inj (String.app "notes/")) in Hn as ->.
Qed.

Lemma note_path_shift a b c :
  Spec.note_path (a +:+ "/notes/" +:+ b) c
  = Spec.note_path a (b +:+ "/notes/" +:+ c).
Proof.
  unfold Spec.note_path. f_equal.
  rewrite !string_app_assoc. reflexivity.
Qed.

Lemma DeleteNote_call_inj r1 r2 :
  [Call_DeleteNote r1] = [Call_DeleteNote r2] ->
  DeleteNoteRequest_Name r1 = DeleteNoteRequest_Name r2.
Proof. by intros [= ->]. Qed.

Lemma GetNote_call_inj r1 r2 :
  [Call_GetNote r1] = [Call_GetNote r2] ->
  GetNoteRequest_Name r1 = GetNoteRequest_Name r2.
Proof. by intros [= ->]. Qed.

Lemma UpdateNote_call_inj r1 r2 :
  [Call_UpdateNote r1] = [Call_UpdateNote r2] ->
  UpdateNoteRequest_Name r1 = UpdateNoteRequest_Name r2.
Proof. by intros [= ->]. Qed.

Lemma Datasets_Delete_call_inj c svc1 name1 svc2 name2 :
  [c; Call_Datasets_Delete svc1 name1] = [c; Call_Datasets_Delete svc2 name2] ->
  name1 = name2.
Proof. by intros [= _ ->]. Qed.

(** X3. The note name is composed without any check of its parts.  When
    the project ids hold no slash, the name that deleteNote, getNote and
    updateNote send determines the pair [(projectID, noteID)]; without
    that, distinct pairs are sent under one name: the note [c] of project
    [a/notes/b] and the note [b/notes/c] of project [a] are the same
    request. *)
Theorem note_requests_tell_pairs_apart
    (client : GrafeasV1Beta1Client) (w : World) :
  (forall p1 n1 p2 n2,
     Spec.no_slash p1 = true -> Spec.no_slash p2 = true ->
     (calls (deleteNote client n1 p1 w).2 = calls (deleteNote client n2 p2 w).2 \/
      calls (getNote client n1 p1 w).2 = calls (getNote client n2 p2 w).2 \/
      (exists u1 u2,
         calls (updateNote client u1 n1 p1 w).2
         = calls (updateNote client u2 n2 p2 w).2)) ->
     p1 = p2 /\ n1 = n2) /\
  (forall a b c,
     deleteNote client c (a +:+ "/notes/" +:+ b) w
     = deleteNote client (b +:+ "/notes/" +:+ c) a w /\
     getNote client c (a +:+ "/notes/" +:+ b) w
     = getNote client (b +:+ "/notes/" +:+ c) a w).
Proof.
  split.
  - intros p1 n1 p2 n2 H1 H2 Hcalls.
    apply (note_path_inj _ _ _ _ H1 H2).
    destruct Hcalls as [Hc|[Hc|(u1 & u2 & Hc)]].
    + rewrite !deleteNote_call in Hc. cbv zeta in Hc.
      rewrite !invoke_calls in Hc. apply app_inv_head in Hc.
      exact (DeleteNote_call_inj _ _ Hc).
    + destruct (GetNote client {| GetNoteRequest_Name := Spec.note_path p1 n1 |}
                  (cloud w)) as [[v1 e1] cl1] eqn:Hg1.
      destruct (GetNote client {| GetNoteRequest_Name := Spec.note_path p2 n2 |}
                  (cloud w)) as [[v2 e2] cl2] eqn:Hg2.
      rewrite (getNote_run _ _ _ _ _ _ _ Hg1), (getNote_run _ _ _ _ _ _ _ Hg2) in Hc.
      simpl in Hc. apply app_inv_head in Hc.
      exact (GetNote_call_inj _ _ Hc).
    + rewrite !updateNote_call in Hc. cbv zeta in Hc.
      rewrite !invoke_calls in Hc. apply app_inv_head in Hc.
      exact (UpdateNote_call_inj _ _ Hc).
  - intros a b c. unfold deleteNote, getNote.
    by rewrite !sprintf_note, note_path_shift.
Qed.

Lemma dataset_path_inj p1 l1 d1 p2 l2 d2 :
  Spec.no_slash p1 = true -> Spec.no_slash p2 = true ->
  Spec.no_slash l1 = true -> Spec.no_slash l2 = true ->
  Spec.dataset_path p1 l1 d1 = Spec.dataset_path p2 l2 d2 ->
  p1 = p2 /\ l1 = l2 /\ d1 = d2.
Proof.
  unfold Spec.dataset_path. intros Hp1 Hp2 Hl1 Hl2 Heq.
  apply (inj (String.app "projects/")) in Heq.
  change (p1 +:+ String "/" ("locations/" +:+ l1 +:+ "/datasets/" +:+ d1)
          = p2 +:+ String "/" ("locations/" +:+ l2 +:+ "/datasets/" +:+ d2)) in Heq.
  destruct (split_at_first_slash _ _ _ _ Hp1 Hp2 Heq) as [-> Hl].
  apply (inj (String.app "locations/")) in Hl.
  change (l1 +:+ String "/" ("datasets/" +:+ d1)
          = l2 +:+ String "/" ("datasets/" +:+ d2)) in Hl.
  destruct (split_at_first_slash _ _ _ _ Hl1 Hl2 Hl) as [-> Hd].
  by apply (inj (String.app "datasets/")) in Hd as ->.
Qed.

(** X4. When project ids and locations hold no slash, the delete call that
    deleteDataset makes determines the dataset: two runs from the same
    world that log the same calls were given the same
    [(projectID, location, datasetID)]. *)
Theorem deleteDataset_tells_datasets_apart
    (wr1 wr2 : nat) (p1 l1 d1 p2 l2 d2 : string) (w : World)
    (svc : healthcare_Service) (c1 : Cloud) :
  healthcare_NewService (cloud w) = ((svc, None), c1) ->
  Spec.no_slash p1 = true -> Spec.no_slash p2 = true ->
  Spec.no_slash l1 = true -> Spec.no_slash l2 = true ->
  calls (deleteDataset wr1 p1 l1 d1 w).2 = calls (deleteDataset wr2 p2 l2 d2 w).2 ->
  p1 = p2 /\ l1 = l2 /\ d1 = d2.
Proof.
  intros Hn Hp1 Hp2 Hl1 Hl2 Hcalls.
  apply (dataset_path_inj _ _ _ _ _ _ Hp1 Hp2 Hl1 Hl2).
  assert (forall wr p l d,
    calls (deleteDataset wr p l d w).2 =
    calls w ++ [Call_healthcare_NewService;
                Call_Datasets_Delete svc (Spec.dataset_path p l d)]) as Hlog.
  { intros wr p l d.
    destruct (healthcare_Datasets_Delete svc (Spec.dataset_path p l d) c1)
      as [[res [e|]] c2] eqn:Hd.
    - by rewrite (deleteDataset_delete_fails _ _ _ _ _ _ _ _ _ _ Hn Hd).
    - by rewrite (deleteDataset_deletes _ _ _ _ _ _ _ _ _ Hn Hd). }
  rewrite !Hlog in Hcalls. apply app_inv_head in Hcalls.
  exact (Datasets_Delete_call_inj _ _ _ _ _ Hcalls).
Qed.


(** ** The listings, whatever the cursor does *)

(** X5. The three loops treat a cursor in one and the same way: for every
    cursor and every number of rounds, the loop of getOccurrencesForImage
    is the loop of getOccurrencesForNote, and the loop of getDiscoveryInfo
    leaves the same world and returns the same error, without the count. *)
Theorem listing_loops_agree (fuel : nat) (it : OccurrenceIterator)
    (count : Z) (w : World) :
  getOccurrencesForImage_loop fuel it count w
    = getOccurrencesForNote_loop fuel it count w /\
  getDiscoveryInfo_loop fuel it w
    = (drop_count (getOccurrencesForNote_loop fuel it count w).1,
       (getOccurrencesForNote_loop fuel it count w).2).
Proof.
  split; [apply getOccurrencesForImage_loop_eq | apply getDiscoveryInfo_loop_eq].
Qed.

Lemma counting_loop_returned fuel it :
  forall count w r w',
    getOccurrencesForNote_loop fuel it count w = (Returned r, w') ->
    stops_within it (cloud w) fuel.
Proof.
  induction fuel as [|fuel IH]; intros count w r w' Hrun; [discriminate|].
  rewrite getOccurrencesForNote_loop_S in Hrun.
  destruct (OccurrenceIterator_Next it (cloud w)) as [[occ err] c1] eqn:Hnext.
  rewrite (invoke_eq _ _ _ _ _ Hnext) in Hrun.
  destruct err as [e|].
  - exists [], e, c1. split; [by eapply Yields_last | simpl; lia].
  - change (is_Done None) with false in Hrun.
    change (negb (is_nil None)) with false in Hrun. cbv iota in Hrun.
    destruct (IH _ _ _ _ Hrun) as (xs & e & c' & Hy & Hlen). simpl in Hy.
    exists (occ :: xs), e, c'. split; [by eapply Yields_more | simpl; lia].
Qed.

Lemma counting_loop_returns_iff fuel it count w :
  has_returned (getOccurrencesForNote_loop fuel it count w).1
  <-> stops_within it (cloud w) fuel.
Proof.
  split.
  - intros [r Hr].
    destruct (getOccurrencesForNote_loop fuel it count w) as [r0 w'] eqn:Hrun.
    simpl in Hr. subst r0. by eapply counting_loop_returned.
  - intros (xs & e & c' & Hy & Hlen).
    rewrite (counting_loop_run _ _ _ _ _ Hy) by done. by eexists.
Qed.

Lemma has_returned_drop_count (r : run (Z * error)) :
  has_returned (drop_count r) <-> has_returned r.
Proof.
  destruct r as [[n e]|]; split; intros [a Ha]; try discriminate; by eexists.
Qed.

(** X6. A listing returns exactly when the cursor stops: each of the
    three operations comes back from its loop if and only if, within the
    rounds it is given, some call of [Next] returns a non-nil error
    ([iterator.Done] or another).  No other way out of the loop exists. *)
Theorem listing_returns_iff_cursor_stops
    (client : GrafeasV1Beta1Client) (fuel : nat) (w : World) :
  (forall noteID projectID it c1,
     ListNoteOccurrences client (note_request noteID projectID) (cloud w)
       = (it, c1) ->
     has_returned (getOccurrencesForNote fuel client noteID projectID w).1
     <-> stops_within it c1 fuel) /\
  (forall imageURL projectID it c1,
     ListOccurrences client (image_request imageURL projectID) (cloud w)
       = (it, c1) ->
     has_returned (getOccurrencesForImage fuel client imageURL projectID w).1
     <-> stops_within it c1 fuel) /\
  (forall imageURL projectID it c1,
     ListOccurrences client (discovery_request imageURL projectID) (cloud w)
       = (it, c1) ->
     has_returned (getDiscoveryInfo fuel client imageURL projectID w).1
     <-> stops_within it c1 fuel).
Proof.
  split; [|split]; intros ? ? it c1 Hl.
  - rewrite (getOccurrencesForNote_start _ _ _ _ _ _ _ Hl).
    apply counting_loop_returns_iff.
  - rewrite (getOccurrencesForImage_start _ _ _ _ _ _ _ Hl).
    apply counting_loop_returns_iff.
  - rewrite (getDiscoveryInfo_start _ _ _ _ _ _ _ Hl).
    rewrite (getDiscoveryInfo_loop_eq _ _ 0). simpl.
    rewrite has_returned_drop_count. apply counting_loop_returns_iff.
Qed.

Lemma never_stops_next it c :
  never_stops it c -> never_stops it (OccurrenceIterator_Next it c).2.
Proof. intros Hn n. exact (Hn (S n)). Qed.

(** On a cursor that never stops the counting loop uses up every round it
    is given: one element printed and one call of [Next] per round. *)
Lemma counting_loop_keeps_running fuel it :
  forall count w,
    never_stops it (cloud w) ->
    getOccurrencesForNote_loop fuel it count w =
    (Running,
     {| stdout := stdout w ++ (Sprintln <$> first_elements fuel it (cloud w));
        written := written w;
        calls := calls w ++ replicate fuel (Call_Next it);
        acked := acked w;
        cloud := after_nexts fuel it (cloud w) |}).
Proof.
  induction fuel as [|fuel IH]; intros count w Hn.
  - simpl. rewrite !app_nil_r. by destruct w.
  - rewrite getOccurrencesForNote_loop_S.
    pose proof (Hn 0%nat) as H0. simpl in H0.
    destruct (OccurrenceIterator_Next it (cloud w)) as [[occ err] c1] eqn:Hnext.
    simpl in H0. subst err.
    rewrite (invoke_eq _ _ _ _ _ Hnext).
    change (is_Done None) with false.
    change (negb (is_nil None)) with false. cbv iota.
    rewrite IH.
    + simpl. rewrite Hnext. simpl. by rewrite <- !app_assoc.
    + simpl. pose proof (never_stops_next _ _ Hn) as Hn'.
      by rewrite Hnext in Hn'.
Qed.

(** X7. On a cursor that never stops, no listing returns: however many
    rounds it is given, getOccurrencesForNote is still in its loop, having
    printed one line and called [Next] once per round; likewise
    getOccurrencesForImage and getDiscoveryInfo. *)
Theorem listing_runs_as_long_as_the_cursor
    (client : GrafeasV1Beta1Client) (fuel : nat) (w : World) :
  (forall noteID projectID it c1,
     ListNoteOccurrences client (note_request noteID projectID) (cloud w)
       = (it, c1) ->
     never_stops it c1 ->
     getOccurrencesForNote fuel client noteID projectID w =
     (Running,
      {| stdout := stdout w ++ (Sprintln <$> first_elements fuel it c1);
         written := written w;
         calls := calls w ++
           Call_ListNoteOccurrences (note_request noteID projectID)
           :: replicate fuel (Call_Next it);
         acked := acked w;
         cloud := after_nexts fuel it c1 |})) /\
  (forall imageURL projectID it c1,
     ListOccurrences client (image_request imageURL projectID) (cloud w)
       = (it, c1) ->
     never_stops it c1 ->
     (getOccurrencesForImage fuel client imageURL projectID w).1 = Running) /\
  (forall imageURL projectID it c1,
     ListOccurrences client (discovery_request imageURL projectID) (cloud w)
       = (it, c1) ->
     never_stops it c1 ->
     (getDiscoveryInfo fuel client imageURL projectID w).1 = Running).
Proof.
  split; [|split]; intros ? ? it c1 Hl Hn.
  - rewrite (getOccurrencesForNote_start _ _ _ _ _ _ _ Hl).
    rewrite counting_loop_keeps_running by done. simpl.
    by rewrite <- app_assoc.
  - rewrite (getOccurrencesForImage_start _ _ _ _ _ _ _ Hl).
    by rewrite counting_loop_keeps_running.
  - rewrite (getDiscoveryInfo_start _ _ _ _ _ _ _ Hl).
    rewrite (getDiscoveryInfo_loop_eq _ _ 0).
    by rewrite counting_loop_keeps_running.
Qed.

Lemma add_wrap_1 z : Go.add (Go.wrap z) 1 = Go.wrap (z + 1).
Proof.
  unfold Go.add, Go.wrap.
  replace ((z + 2 ^ (Go.int_bits - 1)) mod 2 ^ Go.int_bits
           - 2 ^ (Go.int_bits - 1) + 1 + 2 ^ (Go.int_bits - 1))
    with ((z + 2 ^ (Go.int_bits - 1)) mod 2 ^ Go.int_bits + 1) by lia.
  rewrite Zplus_mod_idemp_l. f_equal. f_equal. lia.
Qed.

Lemma counted_wraps n : counted n 0 = Go.wrap (Z.of_nat n).
Proof.
  induction n as [|n IH]; [reflexivity|].
  rewrite counted_succ, IH, add_wrap_1. f_equal. lia.
Qed.

Lemma wrap_range z : Go.min_int <= Go.wrap z <= Go.max_int.
Proof.
  unfold Go.wrap, Go.min_int, Go.max_int, Go.int_bits.
  pose proof (Z.mod_pos_bound (z + 2 ^ (64 - 1)) (2 ^ 64)) as Hb. lia.
Qed.

(** X8. The count of getOccurrencesForNote and getOccurrencesForImage is
    kept in an [int]: on a cursor that hands out [n] elements and then
    [iterator.Done], whatever [n] is, the count returned is [n] wrapped
    into the range of [int], and so never leaves that range. *)
Theorem listing_count_is_an_int
    (client : GrafeasV1Beta1Client) (fuel : nat) (w : World)
    (xs : list (option Occurrence)) (c' : Cloud) :
  (length xs < fuel)%nat ->
  let n := Go.wrap (Z.of_nat (length xs)) in
  Go.min_int <= n <= Go.max_int /\
  (forall noteID projectID it c1,
     ListNoteOccurrences client (note_request noteID projectID) (cloud w)
       = (it, c1) ->
     Yields it c1 xs iterator_Done c' ->
     (getOccurrencesForNote fuel client noteID projectID w).1 = Returned (n, None)) /\
  (forall imageURL projectID it c1,
     ListOccurrences client (image_request imageURL projectID) (cloud w)
       = (it, c1) ->
     Yields it c1 xs iterator_Done c' ->
     (getOccurrencesForImage fuel client imageURL projectID w).1 = Returned (n, None)).
Proof.
  intros Hfuel n. split; [apply wrap_range|].
  split; intros ? ? it c1 Hl Hy.
  - rewrite (getOccurrencesForNote_run _ _ _ _ _ _ _ _ _ _ Hl Hy Hfuel).
    rewrite decide_True by done. by rewrite counted_wraps.
  - rewrite (getOccurrencesForImage_run _ _ _ _ _ _ _ _ _ _ Hl Hy Hfuel).
    rewrite decide_True by done. by rewrite counted_wraps.
Qed.


(** ** The receive session, at any point of any schedule *)

Lemma session_inv_reached (w : World) (session : pubsub.Session) (sched : list nat) :
  exists order acks,
    session_inv w (pubsub.delivered session)
      (run_schedule sched (session_start session w)) order acks.
Proof.
  exact (run_schedule_inv w _ sched _ _ _ (session_inv_start w session)).
Qed.

Lemma critical_app g1 g2 : critical (g1 ++ g2) = (critical g1 + critical g2)%nat.
Proof.
  induction g1 as [|[p m] g1 IH]; [reflexivity|]. simpl. rewrite IH. lia.
Qed.

Lemma critical_idle g : Forall idle g -> critical g = 0%nat.
Proof.
  induction 1 as [|[p m] g [Hp|Hp] _ IH]; [reflexivity| |];
    simpl in Hp; subst p; exact IH.
Qed.

Lemma holding_in_critical_section p msg fr order acks done :
  holding p msg fr order acks done -> in_critical_section p = true.
Proof. by destruct p. Qed.

(** X9. The mutex does its work: at every point of every schedule, the
    number of callbacks between [mu.Lock()] and [mu.Unlock()] is one when
    the mutex is held and none when it is free; two callbacks are never
    inside together. *)
Theorem one_callback_at_a_time
    (session : pubsub.Session) (w : World) (sched : list nat) :
  let r := run_schedule sched (session_start session w) in
  critical (goroutines r) = (if mu (frame r) then 1 else 0)%nat.
Proof.
  intros r. subst r.
  destruct (session_inv_reached w session sched) as (order & acks & Hinv).
  destruct (inv_turn _ _ _ _ _ Hinv)
    as [(Hmu & Hidle & _)|(Hmu & l1 & p & m & l2 & Hg & Hl1 & Hl2 & Hhold)].
  - rewrite Hmu. by apply critical_idle.
  - rewrite Hmu, Hg, critical_app. simpl.
    rewrite (holding_in_critical_section _ _ _ _ _ _ Hhold).
    rewrite (critical_idle _ Hl1), (critical_idle _ Hl2). reflexivity.
Qed.

(** X10. A message is acknowledged only after its line has been printed:
    at every point of every schedule, the lines printed are those of some
    messages [order], numbered in that order, and the messages acknowledged
    are [order] itself or [order] without its last message; standard output
    and acknowledgements are the only things the callbacks change. *)
Theorem acknowledged_after_printed
    (session : pubsub.Session) (w : World) (sched : list nat) :
  let r := run_schedule sched (session_start session w) in
  exists order acks,
    stdout (world r) = stdout w ++ message_lines 0 order /\
    acked (world r) = acked w ++ acks /\
    (acks = order \/ exists msg, order = acks ++ [msg]) /\
    written (world r) = written w /\ calls (world r) = calls w /\
    cloud (world r) = cloud w.
Proof.
  intros r. subst r.
  destruct (session_inv_reached w session sched) as (order & acks & Hinv).
  exists order, acks.
  destruct Hinv as [_ Hout Hack Hwr Hcalls Hcloud Hturn].
  repeat split; try done.
  destruct Hturn as [(_ & _ & _ & Ha & _)|(_ & l1 & p & m & l2 & _ & _ & _ & Hhold)].
  - by left.
  - destruct p; simpl in Hhold; try done.
    + left. by destruct Hhold as (_ & ? & _).
    + left. by destruct Hhold as (_ & ? & _).
    + left. by destruct Hhold as (_ & ? & _).
    + right. destruct Hhold as (order' & -> & _ & -> & _). by exists m.
    + left. by destruct Hhold as (_ & _ & _ & ? & _).
Qed.

Lemma run_schedule_app s1 s2 r :
  run_schedule (s1 ++ s2) r = run_schedule s2 (run_schedule s1 r).
Proof. apply foldl_app. Qed.

Lemma holder_moves l1 l2 p m fr w p' fr' w' :
  callback_step m p fr w = Some (p', fr', w') ->
  sched_step {| goroutines := l1 ++ (p, m) :: l2; frame := fr; world := w |}
    (length l1)
  = {| goroutines := l1 ++ (p', m) :: l2; frame := fr'; world := w' |}.
Proof.
  intros Hs. unfold sched_step. simpl.
  rewrite list_lookup_middle by done. rewrite Hs. by rewrite insert_holder.
Qed.

Lemma holder_stays l1 l2 p m fr w :
  callback_step m p fr w = None ->
  sched_step {| goroutines := l1 ++ (p, m) :: l2; frame := fr; world := w |}
    (length l1)
  = {| goroutines := l1 ++ (p, m) :: l2; frame := fr; world := w |}.
Proof.
  intros Hs. unfold sched_step. simpl.
  rewrite list_lookup_middle by done. by rewrite Hs.
Qed.

(** Five picks of the holder of the mutex bring it to its return, with the
    mutex free again. *)
Lemma holder_returns l1 l2 p m fr w :
  in_critical_section p = true ->
  exists fr' w',
    run_schedule (replicate 5 (length l1))
      {| goroutines := l1 ++ (p, m) :: l2; frame := fr; world := w |}
    = {| goroutines := l1 ++ (returned, m) :: l2; frame := fr'; world := w' |}
    /\ mu fr' = false.
Proof.
  intros Hp. unfold run_schedule. simpl.
  destruct p; try discriminate;
    repeat first
      [ erewrite holder_moves by reflexivity
      | erewrite holder_stays by reflexivity ];
    by eexists _, _.
Qed.

(** Six picks take a callback that has not begun through to its return
    when the mutex is free. *)
Lemma waiting_returns l1 l2 m fr w :
  mu fr = false ->
  exists fr' w',
    run_schedule (replicate 6 (length l1))
      {| goroutines := l1 ++ (at_Lock, m) :: l2; frame := fr; world := w |}
    = {| goroutines := l1 ++ (returned, m) :: l2; frame := fr'; world := w' |}
    /\ mu fr' = false.
Proof.
  intros Hmu. unfold run_schedule. simpl.
  erewrite (holder_moves l1 l2 at_Lock) by (simpl; rewrite Hmu; reflexivity).
  repeat erewrite holder_moves by reflexivity.
  by eexists _, _.
Qed.

(** With the mutex free and nobody inside, some schedule lets every
    callback return. *)
Lemma idle_callbacks_can_return g2 :
  forall g1 fr w,
    mu fr = false -> all_returned g1 = true -> Forall idle g2 ->
    exists more,
      all_returned
        (goroutines (run_schedule more
           {| goroutines := g1 ++ g2; frame := fr; world := w |})) = true.
Proof.
  induction g2 as [|[p m] g2 IH]; intros g1 fr w Hmu Hg1 Hidle.
  - exists []. simpl. by rewrite app_nil_r.
  - apply Forall_cons in Hidle as [Hp Hidle].
    assert (all_returned (g1 ++ [(returned, m)]) = true) as Hg1'.
    { unfold all_returned. rewrite forallb_app. simpl.
      fold (all_returned g1). by rewrite Hg1. }
    destruct Hp as [Hp|Hp]; simpl in Hp; subst p.
    + destruct (waiting_returns g1 g2 m fr w Hmu) as (fr' & w' & Hrun & Hmu').
      destruct (IH (g1 ++ [(returned, m)]) fr' w' Hmu' Hg1' Hidle) as [more Hmore].
      exists (replicate 6 (length g1) ++ more).
      rewrite run_schedule_app, Hrun.
      by rewrite (cons_middle (returned, m)), app_assoc.
    + destruct (IH (g1 ++ [(returned, m)]) fr w Hmu Hg1' Hidle) as [more Hmore].
      exists more. by rewrite (cons_middle (returned, m)), app_assoc.
Qed.

(** X11. The callbacks cannot block one another for good: whatever the
    scheduler has done so far, it can go on in a way that lets every
    callback return, so that [Receive] can return. *)
Theorem callbacks_can_always_return
    (session : pubsub.Session) (w : World) (sched : list nat) :
  exists more,
    callbacks_return
      {| pubsub.delivered := pubsub.delivered session;
         pubsub.schedule := sched ++ more;
         pubsub.receive_err := pubsub.receive_err session |} w.
Proof.
  unfold callbacks_return. simpl.
  change (session_start
            {| pubsub.delivered := pubsub.delivered session;
               pubsub.schedule := ?s;
               pubsub.receive_err := pubsub.receive_err session |} w)
    with (session_start session w).
  destruct (session_inv_reached w session sched) as (order & acks & Hinv).
  destruct (run_schedule sched (session_start session w)) as [g fr wr] eqn:Hr.
  destruct (inv_turn _ _ _ _ _ Hinv)
    as [(Hmu & Hidle & _)|(Hmu & l1 & p & m & l2 & Hg & Hl1 & Hl2 & Hhold)];
    simpl in *.
  - destruct (idle_callbacks_can_return g [] fr wr Hmu eq_refl Hidle) as [more Hmore].
    exists more. by rewrite run_schedule_app, Hr.
  - subst g.
    destruct (holder_returns l1 l2 p m fr wr
                (holding_in_critical_section _ _ _ _ _ _ Hhold))
      as (fr' & w' & Hrun & Hmu').
    assert (Forall idle (l1 ++ (returned, m) :: l2)) as Hidle.
    { apply Forall_app. split; [done|]. constructor; [by right | done]. }
    destruct (idle_callbacks_can_return _ [] fr' w' Hmu' eq_refl Hidle)
      as [more Hmore].
    exists (replicate 5 (length l1) ++ more).
    by rewrite !run_schedule_app, Hr, Hrun.
Qed.


(** ** The Pub/Sub samples on their error paths *)

(** X12. When [pubsub.NewClient] fails, both Pub/Sub samples stop there:
    the log holds that one call and nothing else has happened;
    occurrencePubsub returns [-1] with the error and never calls [Receive],
    createOccurrenceSubscription returns the error. *)
Theorem pubsub_samples_stop_without_client
    (subscriptionID : string) (timeout : Z) (projectID : string) (w : World)
    (client : pubsub_Client) (e : error_value) (c1 : Cloud) :
  pubsub_NewClient projectID (cloud w) = ((client, Some e), c1) ->
  let w' := {| stdout := stdout w; written := written w;
               calls := calls w ++ [Call_pubsub_NewClient projectID];
               acked := acked w; cloud := c1 |} in
  occurrencePubsub subscriptionID timeout projectID w = (Returned (-1, Some e), w') /\
  createOccurrenceSubscription subscriptionID projectID w = (Some e, w').
Proof.
  intros Hn w'. split.
  - exact (occurrencePubsub_no_client _ _ _ _ _ _ _ Hn).
  - exact (createOccurrenceSubscription_no_client _ _ _ _ _ _ Hn).
Qed.

(** X13. When [Receive] returns an error after having delivered messages,
    occurrencePubsub returns [-1] with that error and does not print the
    count; the messages delivered have all the same been printed and
    acknowledged, each once. *)
Theorem occurrencePubsub_loses_the_count_on_error
    (subscriptionID : string) (timeout : Z) (projectID : string) (w : World)
    (client : pubsub_Client) (c1 : Cloud) (session : pubsub.Session) (c2 : Cloud)
    (e : error_value) :
  let sub := {| pubsub.Subscription_client := client;
                pubsub.Subscription_ID := subscriptionID |} in
  let d := Go.mul timeout Second in
  pubsub_NewClient projectID (cloud w) = ((client, None), c1) ->
  pubsub_Receive sub d c1 = (session, c2) ->
  callbacks_return session w ->
  pubsub.receive_err session = Some e ->
  exists order,
    order ≡ₚ pubsub.delivered session /\
    occurrencePubsub subscriptionID timeout projectID w =
      (Returned (-1, Some e),
       {| stdout := stdout w ++ message_lines 0 order;
          written := written w;
          calls := calls w ++ [Call_pubsub_NewClient projectID; Call_Receive sub d];
          acked := acked w ++ order;
          cloud := c2 |}).
Proof.
  intros sub d Hn Hr Hret Herr.
  rewrite (occurrencePubsub_session _ _ _ _ _ _ _ _ Hn Hr Hret), Herr.
  fold sub d.
  set (w2 := {| stdout := stdout w; written := written w;
                calls := calls w ++ [Call_pubsub_NewClient projectID; Call_Receive sub d];
                acked := acked w; cloud := c2 |}).
  apply (callbacks_return_world _ _ w2) in Hret. unfold callbacks_return in Hret.
  destruct (session_inv_reached w2 session (pubsub.schedule session))
    as (order & acks & Hinv).
  destruct (session_inv_end w2 _ _ _ _ Hinv Hret) as (Hperm & -> & _).
  exists order. split; [done|].
  destruct Hinv as [_ Hout Hack Hwr Hcalls Hcloud _].
  destruct (world _) as [so wn cs ak cl]. simpl in *. by subst.
Qed.

(** The calls occurrencePubsub makes once it has a client, whatever the
    session brings. *)
Lemma occurrencePubsub_calls subscriptionID timeout projectID w client c1 :
  pubsub_NewClient projectID (cloud w) = ((client, None), c1) ->
  calls (occurrencePubsub subscriptionID timeout projectID w).2 =
    calls w ++
    [Call_pubsub_NewClient projectID;
     Call_Receive {| pubsub.Subscription_client := client;
                     pubsub.Subscription_ID := subscriptionID |}
       (Go.mul timeout Second)].
Proof.
  intros Hn.
  destruct (pubsub_Receive {| pubsub.Subscription_client := client;
                              pubsub.Subscription_ID := subscriptionID |}
              (Go.mul timeout Second) c1) as [session c2] eqn:Hr.
  unfold occurrencePubsub, Receive_callback, mbind, M_bind.
  rewrite (invoke_eq _ _ _ _ _ Hn). cbv beta iota zeta.
  change (negb (is_nil None)) with false. cbv beta iota.
  rewrite (invoke_at _ _ _ _ _ _ _ _ _ Hr).
  unfold run_callbacks. rewrite <- app_assoc. simpl app.
  match goal with |- context [run_schedule ?s {| goroutines := _; frame := _; world := ?w2 |}] =>
    destruct (session_inv_reached w2 session s) as (order & acks & Hinv);
    change {| goroutines := spawn (pubsub.delivered session);
              frame := {| mu := false; count := 0 |}; world := w2 |}
      with (session_start session w2);
    pose proof (inv_calls _ _ _ _ _ Hinv) as Hcalls;
    destruct (run_schedule s (session_start session w2)) as [g fr wr]
  end.
  simpl in Hcalls. simpl.
  destruct (all_returned g); [|exact Hcalls].
  destruct (pubsub.receive_err session); exact Hcalls.
Qed.

(** X14. The timeout of occurrencePubsub is turned into nanoseconds in an
    [int64]: for timeouts of up to 9223372036 seconds (in absolute value)
    [Receive] is given exactly [timeout] seconds; one second more and the
    product wraps around to a negative duration. *)
Theorem occurrencePubsub_timeout_in_nanoseconds
    (subscriptionID : string) (timeout : Z) (projectID : string) (w : World)
    (client : pubsub_Client) (c1 : Cloud) :
  pubsub_NewClient projectID (cloud w) = ((client, None), c1) ->
  - 9223372036 <= timeout <= 9223372036 ->
  new_calls w (occurrencePubsub subscriptionID timeout projectID w).2
    [Call_pubsub_NewClient projectID;
     Call_Receive {| pubsub.Subscription_client := client;
                     pubsub.Subscription_ID := subscriptionID |}
       (timeout * 1000000000)] /\
  new_calls w (occurrencePubsub subscriptionID 9223372037 projectID w).2
    [Call_pubsub_NewClient projectID;
     Call_Receive {| pubsub.Subscription_client := client;
                     pubsub.Subscription_ID := subscriptionID |}
       (- 9223372036709551616)].
Proof.
  intros Hn Hrange. unfold new_calls.
  rewrite !(occurrencePubsub_calls _ _ _ _ _ _ Hn). split; [|reflexivity].
  unfold Go.mul, Second. rewrite wrap_in_range; [reflexivity|].
  unfold Go.min_int, Go.max_int, Go.int_bits. lia.
Qed.

(** ** deleteDataset and its writer *)

(** X15. deleteDataset reports a deletion only when it has happened: it
    writes the line [Deleted dataset: "<name>"] on its writer exactly when
    it returns nil; when it returns an error the writer has received
    nothing.  It never prints on standard output. *)
Theorem deleteDataset_reports_only_success
    (wr : nat) (projectID location datasetID : string) (w : World) :
  let r := deleteDataset wr projectID location datasetID w in
  stdout r.2 = stdout w /\
  (r.1 = None ->
     written r.2 = written w ++
       [(wr, "Deleted dataset: " +:+
             Quote quote_from_non_ascii
               (Spec.dataset_path projectID location datasetID)
             +:+ String newline "")]) /\
  (r.1 <> None -> written r.2 = written w).
Proof.
  intros r. subst r.
  destruct (healthcare_NewService (cloud w)) as [[svc [e|]] c1] eqn:Hn.
  - rewrite (deleteDataset_no_service _ _ _ _ _ _ _ _ Hn). simpl.
    by repeat split.
  - destruct (healthcare_Datasets_Delete svc
                (Spec.dataset_path projectID location datasetID) c1)
      as [[res [e|]] c2] eqn:Hd.
    + rewrite (deleteDataset_delete_fails _ _ _ _ _ _ _ _ _ _ Hn Hd). simpl.
      by repeat split.
    + rewrite (deleteDataset_deletes _ _ _ _ _ _ _ _ _ Hn Hd). simpl.
      by repeat split.
Qed.


(** ** The filters and the image URL *)

Lemma unescape_escape_ascii (c : ascii) (rest : string) :
  (N_of_ascii c <? 128)%N = true ->
  Spec.unescape (escape_ascii c +:+ rest) = String c <$> Spec.unescape rest.
Proof.
  destruct c as [b0 b1 b2 b3 b4 b5 b6 b7].
  destruct b7.
  - intros Hc. exfalso.
    destruct b0, b1, b2, b3, b4, b5, b6; vm_compute in Hc; discriminate.
  - intros _. destruct b0, b1, b2, b3, b4, b5, b6; reflexivity.
Qed.

(** Reading back what [%q] wrote between the quotes gives the string
    again. *)
Lemma unescape_quote_body (s : string) :
  Spec.is_ascii s = true ->
  Spec.unescape (quote_body quote_from_non_ascii s) = Some s.
Proof.
  induction s as [|c s IH]; [reflexivity|].
  simpl. intros [Hc Hs]%andb_true_iff.
  by rewrite Hc, (unescape_escape_ascii c _ Hc), (IH Hs).
Qed.

Lemma string_app_inv_tail (a b c : string) : a +:+ c = b +:+ c -> a = b.
Proof.
  revert b. induction a as [|x a IH]; intros [|y b] Heq.
  - reflexivity.
  - apply (f_equal String.length) in Heq.
    rewrite !string_length_app in Heq. simpl in Heq. lia.
  - apply (f_equal String.length) in Heq.
    rewrite !string_length_app in Heq. simpl in Heq. lia.
  - change (String x (a +:+ c) = String y (b +:+ c)) in Heq.
    injection Heq as -> Heq. by rewrite (IH b Heq).
Qed.

Lemma Quote_inj (s1 s2 : string) :
  Spec.is_ascii s1 = true -> Spec.is_ascii s2 = true ->
  Quote quote_from_non_ascii s1 = Quote quote_from_non_ascii s2 -> s1 = s2.
Proof.
  unfold Quote. intros H1 H2 [= Heq].
  apply string_app_inv_tail in Heq.
  apply (f_equal Spec.unescape) in Heq.
  rewrite !unescape_quote_body in Heq by done. by injection Heq.
Qed.

Lemma first_new_call (w w' : World) (c : Call) (rest : list Call) :
  calls w' = calls w ++ c :: rest -> calls w' !! length (calls w) = Some c.
Proof. intros ->. by apply list_lookup_middle. Qed.

Lemma getOccurrencesForImage_list_call client fuel imageURL projectID w :
  calls (getOccurrencesForImage fuel client imageURL projectID w).2
    !! length (calls w)
  = Some (Call_ListOccurrences (image_request imageURL projectID)).
Proof.
  destruct (ListOccurrences client (image_request imageURL projectID) (cloud w))
    as [it c1] eqn:Hl.
  rewrite (getOccurrencesForImage_start _ _ _ _ _ _ _ Hl).
  match goal with |- context [getOccurrencesForNote_loop fuel it 0 ?w1] =>
    destruct (counting_loop_calls fuel it 0 w1) as [k Hk] end.
  simpl in Hk. rewrite <- app_assoc in Hk. exact (first_new_call _ _ _ _ Hk).
Qed.

Lemma getDiscoveryInfo_list_call client fuel imageURL projectID w :
  calls (getDiscoveryInfo fuel client imageURL projectID w).2
    !! length (calls w)
  = Some (Call_ListOccurrences (discovery_request imageURL projectID)).
Proof.
  destruct (ListOccurrences client (discovery_request imageURL projectID) (cloud w))
    as [it c1] eqn:Hl.
  rewrite (getDiscoveryInfo_start _ _ _ _ _ _ _ Hl).
  rewrite (getDiscoveryInfo_loop_eq _ _ 0). simpl.
  match goal with |- context [getOccurrencesForNote_loop fuel it 0 ?w1] =>
    destruct (counting_loop_calls fuel it 0 w1) as [k Hk] end.
  simpl in Hk. rewrite <- app_assoc in Hk. exact (first_new_call _ _ _ _ Hk).
Qed.

Lemma ListOccurrences_call_inj r1 r2 :
  Some (Call_ListOccurrences r1) = Some (Call_ListOccurrences r2) -> r1 = r2.
Proof. by intros [= ->]. Qed.

Lemma image_request_inj u1 p1 u2 p2 :
  Spec.is_ascii u1 = true -> Spec.is_ascii u2 = true ->
  image_request u1 p1 = image_request u2 p2 -> u1 = u2.
Proof.
  intros H1 H2 Heq.
  apply (f_equal ListOccurrencesRequest_Filter) in Heq. simpl in Heq.
  apply (inj (String.app "resourceUrl=")) in Heq. by apply Quote_inj.
Qed.

Lemma discovery_request_inj u1 p1 u2 p2 :
  Spec.is_ascii u1 = true -> Spec.is_ascii u2 = true ->
  discovery_request u1 p1 = discovery_request u2 p2 -> u1 = u2.
Proof.
  intros H1 H2 Heq.
  apply (f_equal ListOccurrencesRequest_Filter) in Heq. simpl in Heq.
  apply (inj (String.app "kind=")) in Heq.
  apply (inj (String.app (Spec.in_quotes "DISCOVERY"))) in Heq.
  apply (inj (String.app " AND resourceUrl=")) in Heq. by apply Quote_inj.
Qed.

(** X16. Because the image URL goes into the filter through [%q], the
    filter keeps the URL apart from the rest and from other URLs: for
    image URLs of ASCII bytes (quotes, backslashes and control bytes
    included), two runs of getOccurrencesForImage, or of getDiscoveryInfo,
    whose list requests are the same were given the same URL. *)
Theorem list_requests_tell_urls_apart
    (client : GrafeasV1Beta1Client) (fuel1 fuel2 : nat) (w : World)
    (url1 project1 url2 project2 : string) :
  Spec.is_ascii url1 = true -> Spec.is_ascii url2 = true ->
  (calls (getOccurrencesForImage fuel1 client url1 project1 w).2
     !! length (calls w)
   = calls (getOccurrencesForImage fuel2 client url2 project2 w).2
     !! length (calls w) ->
   url1 = url2) /\
  (calls (getDiscoveryInfo fuel1 client url1 project1 w).2
     !! length (calls w)
   = calls (getDiscoveryInfo fuel2 client url2 project2 w).2
     !! length (calls w) ->
   url1 = url2).
Proof.
  intros H1 H2. split; intros Heq.
  - rewrite !getOccurrencesForImage_list_call in Heq.
    apply (image_request_inj url1 project1 url2 project2 H1 H2).
    exact (ListOccurrences_call_inj _ _ Heq).
  - rewrite !getDiscoveryInfo_list_call in Heq.
    apply (discovery_request_inj url1 project1 url2 project2 H1 H2).
    exact (ListOccurrences_call_inj _ _ Heq).
Qed.

End Further.

(** * Runs on the scripted libraries *)

Import Go fmt grafeaspb Fake.

Lemma broken_cursor_yields :
  Yields () broken_cursor [o1] unavailable (with_cursor [(o2, None)]).
Proof.
  eapply Yields_more; [reflexivity|]. eapply Yields_last. reflexivity.
Qed.

Lemma short_cursor_yields :
  Yields () short_cursor [o1; o2] iterator_Done (with_cursor []).
Proof.
  eapply Yields_more; [reflexivity|]. eapply Yields_more; [reflexivity|].
  eapply Yields_last. reflexivity.
Qed.

(** getOccurrencesForNote on the broken cursor: one line printed, two calls
    of [Next], the count [-1] and the error. *)
Lemma listing_stops_at_error_run :
  getOccurrencesForNote 2 (client None None None) "n" "p" (world broken_cursor) =
    (Returned (-1, failing),
     {| stdout := ["projects/p/occurrences/1" +:+ String newline ""];
        written := [];
        calls := [Call_ListNoteOccurrences (note_request "n" "p");
                  Call_Next (); Call_Next ()];
        acked := [];
        cloud := with_cursor [(o2, None)] |}).
Proof.
  refine (proj1 (listing_stops_at_error (client None None None) 2
            (world broken_cursor) [o1] unavailable (with_cursor [(o2, None)]) _ _)
          "n" "p" () broken_cursor eq_refl broken_cursor_yields).
  - discriminate.
  - simpl. lia.
Defined.

(** getOccurrencesForImage on the short cursor: two lines, in the order of
    the cursor, and the count 2. *)
Lemma listing_prints_and_counts_run :
  getOccurrencesForImage 3 (client None None None) "gcr.io/p/img" "p"
    (world short_cursor) =
    (Returned (2, None),
     {| stdout := ["projects/p/occurrences/1" +:+ String newline "";
                   "projects/p/occurrences/2" +:+ String newline ""];
        written := [];
        calls := [Call_ListOccurrences (image_request "gcr.io/p/img" "p");
                  Call_Next (); Call_Next (); Call_Next ()];
        acked := [];
        cloud := with_cursor [] |}).
Proof.
  refine (proj1 (proj2 (listing_prints_and_counts (client None None None) 3
            (world short_cursor) [o1; o2] (with_cursor []) _ _))
          "gcr.io/p/img" "p" () short_cursor eq_refl short_cursor_yields).
  - vm_compute. discriminate.
  - simpl. lia.
Defined.

(** C1 as stated fails for getDiscoveryInfo: on the broken cursor it
    returns the error, and no count [-1] with it. *)
Lemma discovery_info_has_no_count_on_error :
  Yields () (cloud (world broken_cursor)) [o1] unavailable
    (with_cursor [(o2, None)]) /\
  unavailable <> iterator_Done /\
  (getDiscoveryInfo 2 (client None None None) "gcr.io/p/img" "p"
     (world broken_cursor)).1 = Returned failing /\
  ~ returns_count_and_error
      (run_listing 2 (client None None None)
         (DiscoveryInfo "gcr.io/p/img" "p") (world broken_cursor)).1
      (-1) failing.
Proof.
  split; [exact broken_cursor_yields|]. split; [discriminate|].
  split; [reflexivity|]. unfold returns_count_and_error. vm_compute.
  discriminate.
Qed.

(** C2 as stated fails for getDiscoveryInfo: on the short cursor it prints
    the two lines and returns nil, and no count 2 with it. *)
Lemma discovery_info_has_no_count_at_the_end :
  Yields () (cloud (world short_cursor)) [o1; o2] iterator_Done (with_cursor []) /\
  (getDiscoveryInfo 3 (client None None None) "gcr.io/p/img" "p"
     (world short_cursor)).1 = Returned None /\
  stdout (getDiscoveryInfo 3 (client None None None) "gcr.io/p/img" "p"
            (world short_cursor)).2 =
    ["projects/p/occurrences/1" +:+ String newline "";
     "projects/p/occurrences/2" +:+ String newline ""] /\
  ~ returns_count_and_error
      (run_listing 3 (client None None None)
         (DiscoveryInfo "gcr.io/p/img" "p") (world short_cursor)).1
      2 None.
Proof.
  split; [exact short_cursor_yields|]. split; [reflexivity|].
  split; [reflexivity|]. unfold returns_count_and_error. vm_compute.
  discriminate.
Qed.

(** For a plain image URL the filters are the ones the specification
    writes. *)
Lemma list_filters_quote_the_url_run :
  Spec.plain "gcr.io/p/img" = true /\
  ListOccurrencesRequest_Filter (discovery_request "gcr.io/p/img" "p")
    = Spec.discovery_filter "gcr.io/p/img" /\
  ListOccurrencesRequest_Filter (image_request "gcr.io/p/img" "p")
    = Spec.image_filter "gcr.io/p/img".
Proof.
  split; [reflexivity|].
  exact (proj2 (proj2 (list_filters_quote_the_url (client None None None) 1
                         "gcr.io/p/img" "p" (world quiet))) eq_refl).
Defined.

(** C8 as stated fails for an image URL with a backslash in it: [%q]
    doubles the backslash, so the filter sent is not the URL between
    quotes. *)
Lemma list_filter_escapes_the_url :
  calls (getOccurrencesForImage 1 (client None None None) "gcr.io\img" "p"
           (world quiet)).2 =
    [Call_ListOccurrences
       {| ListOccurrencesRequest_Parent := "projects/p";
          ListOccurrencesRequest_Filter :=
            "resourceUrl=" +:+ Spec.in_quotes "gcr.io\\img" |};
     Call_Next ()] /\
  "resourceUrl=" +:+ Spec.in_quotes "gcr.io\\img" <> Spec.image_filter "gcr.io\img" /\
  calls (getDiscoveryInfo 1 (client None None None) "gcr.io\img" "p"
           (world quiet)).2 =
    [Call_ListOccurrences
       {| ListOccurrencesRequest_Parent := "projects/p";
          ListOccurrencesRequest_Filter :=
            "kind=" +:+ Spec.in_quotes "DISCOVERY" +:+ " AND resourceUrl="
              +:+ Spec.in_quotes "gcr.io\\img" |};
     Call_Next ()] /\
  "kind=" +:+ Spec.in_quotes "DISCOVERY" +:+ " AND resourceUrl="
    +:+ Spec.in_quotes "gcr.io\\img" <> Spec.discovery_filter "gcr.io\img".
Proof.
  split; [reflexivity|]. split; [vm_compute; discriminate|].
  split; [reflexivity|]. vm_compute. discriminate.
Qed.

(** getNote and getOccurrence when the call fails: [<nil>] is printed, and
    the nil value and the error come back. *)
Lemma get_prints_before_looking_at_error_run :
  let cl := client None None failing in
  ((getNote cl "n" "p" (world quiet)).1 = (None, failing) /\
   stdout (getNote cl "n" "p" (world quiet)).2 = ["<nil>" +:+ String newline ""]) /\
  ((getOccurrence cl "projects/p/occurrences/1" (world quiet)).1 = (None, failing) /\
   stdout (getOccurrence cl "projects/p/occurrences/1" (world quiet)).2
     = ["<nil>" +:+ String newline ""]).
Proof.
  intros cl.
  destruct (get_prints_before_looking_at_error cl "n" "p"
              "projects/p/occurrences/1" (world quiet) None None failing failing
              quiet quiet eq_refl eq_refl) as (_ & _ & Hn & Ho).
  split; [apply Hn | apply Ho]; (reflexivity || discriminate).
Defined.

(** An occurrence in project [scanner] of a note in project [provider]. *)
Lemma createOccurrence_two_projects_run :
  "scanner" <> "provider" /\
  exists occ,
    new_calls (world quiet)
      (createOccurrence (client None None None) "gcr.io/p/img" "n"
         "scanner" "provider" (world quiet)).2
      [Call_CreateOccurrence
         {| CreateOccurrenceRequest_Parent := "projects/scanner";
            CreateOccurrenceRequest_Occurrence := Some occ |}] /\
    Occurrence_NoteName occ = "projects/provider/notes/n" /\
    Occurrence_Resource occ = Some {| Resource_Uri := "gcr.io/p/img" |} /\
    Spec.project_path "scanner" <> Spec.project_path "provider".
Proof.
  assert ("scanner" <> "provider") as Hne by discriminate.
  split; [exact Hne|].
  exact (createOccurrence_two_projects (client None None None) "gcr.io/p/img"
           "n" "scanner" "provider" (world quiet) Hne).
Defined.

(** deleteDataset when everything succeeds: one delete, on the composed
    name, and nil. *)
Lemma deleteDataset_one_delete_run :
  healthcare_NewService (cloud (world quiet)) = (((), None), quiet) /\
  new_calls (world quiet) (deleteDataset 1 "p" "us-central1" "d" (world quiet)).2
    [Call_healthcare_NewService;
     Call_Datasets_Delete () "projects/p/locations/us-central1/datasets/d"] /\
  (deleteDataset 1 "p" "us-central1" "d" (world quiet)).1 = None.
Proof.
  split; [reflexivity|].
  destruct (deleteDataset_one_delete 1 "p" "us-central1" "d" (world quiet)
              () quiet eq_refl) as [Hcalls Hok].
  split; [exact Hcalls|]. exact (proj1 (Hok (Some ()) quiet eq_refl)).
Defined.

(** C5 as stated fails when [healthcare.NewService] fails: deleteDataset
    returns before it has made any delete call. *)
Lemma deleteDataset_without_service :
  healthcare_NewService (cloud (world no_healthcare_service))
    = (((), failing), no_healthcare_service) /\
  calls (deleteDataset 1 "p" "us-central1" "d" (world no_healthcare_service)).2
    = [Call_healthcare_NewService] /\
  filter (fun c => is_Datasets_Delete c)
    (calls (deleteDataset 1 "p" "us-central1" "d" (world no_healthcare_service)).2)
    <> [Call_Datasets_Delete () (Spec.dataset_path "p" "us-central1" "d")].
Proof.
  split; [reflexivity|]. split; [reflexivity|]. vm_compute. discriminate.
Qed.

(** createOccurrenceSubscription when everything succeeds. *)
Lemma subscription_bound_to_occurrence_topic_run :
  pubsub_NewClient "p" (cloud (world quiet)) = (("p", None), quiet) /\
  new_calls (world quiet) (createOccurrenceSubscription "s" "p" (world quiet)).2
    [Call_pubsub_NewClient "p";
     Call_CreateSubscription "p" "s"
       {| pubsub.SubscriptionConfig_Topic :=
            Some {| pubsub.Topic_client := "p";
                    pubsub.Topic_ID := "container-analysis-occurrences-v1beta1" |} |}] /\
  (createOccurrenceSubscription "s" "p" (world quiet)).1 = None.
Proof.
  split; [reflexivity|].
  exact (subscription_bound_to_occurrence_topic "s" "p" (world quiet) "p" quiet
           eq_refl).
Defined.

(** C7 as stated fails when [pubsub.NewClient] fails:
    createOccurrenceSubscription returns that error and creates no
    subscription. *)
Lemma no_subscription_without_client :
  pubsub_NewClient "p" (cloud (world no_pubsub_client))
    = (("p", failing), no_pubsub_client) /\
  createOccurrenceSubscription "s" "p" (world no_pubsub_client) =
    (failing,
     {| stdout := []; written := []; calls := [Call_pubsub_NewClient "p"];
        acked := []; cloud := no_pubsub_client |}) /\
  filter (fun c => is_CreateSubscription c)
    (calls (createOccurrenceSubscription "s" "p" (world no_pubsub_client)).2)
    <> [Call_CreateSubscription "p" "s"
          {| pubsub.SubscriptionConfig_Topic :=
               Some {| pubsub.Topic_client := "p";
                       pubsub.Topic_ID := Spec.occurrence_topic |} |}].
Proof.
  split; [reflexivity|]. split; [reflexivity|]. vm_compute. discriminate.
Qed.

(** occurrencePubsub on a session of two messages in which the second
    callback takes the mutex first. *)
Lemma occurrencePubsub_counts_each_message_run :
  callbacks_return (session two_messages) (world two_messages) /\
  occurrencePubsub "s" 10 "p" (world two_messages) =
    (Returned (2, None),
     {| stdout :=
          ["Message 1: " +:+ Spec.in_quotes "occurrence two" +:+ String newline "";
           "Message 2: " +:+ Spec.in_quotes "occurrence one" +:+ String newline "";
           "2" +:+ String newline ""];
        written := [];
        calls := [Call_pubsub_NewClient "p";
                  Call_Receive {| pubsub.Subscription_client := "p";
                                  pubsub.Subscription_ID := "s" |} 10000000000];
        acked := [m2; m1];
        cloud := two_messages |}).
Proof.
  assert (callbacks_return (session two_messages) (world two_messages)) as Hret
    by reflexivity.
  split; [exact Hret|].
  destruct (occurrencePubsub_counts_each_message "s" 10 "p" (world two_messages)
              "p" two_messages (session two_messages) two_messages
              eq_refl eq_refl Hret eq_refl) as (order & Hperm & Hrun).
  - vm_compute. discriminate.
  - reflexivity.
Defined.

(** deleteDataset when the delete call fails: the error that comes back is
    the new one with the prefix, an object other than the client's. *)
Lemma errors_come_back_unchanged_run :
  (deleteNote (client None None failing) "n" "p" (world quiet)).1 = failing /\
  (deleteDataset 1 "p" "us-central1" "d" (world delete_refused)).1
    = Some (ErrorString "Delete: rpc error: code = Unavailable") /\
  (deleteDataset 1 "p" "us-central1" "d" (world delete_refused)).1 <> failing.
Proof.
  split; [reflexivity|].
  destruct (errors_come_back_unchanged (client None None None)
              (world delete_refused))
    as (_ & _ & _ & _ & _ & _ & _ & _ & _ & _ & _ & _ & _ & Hdel).
  exact (Hdel 1%nat "p" "us-central1" "d" () delete_refused None unavailable
           delete_refused eq_refl eq_refl).
Defined.

(** ** Runs for the further properties *)

(** Two delete requests under one name were given one pair. *)
Lemma note_requests_tell_pairs_apart_run :
  Spec.no_slash "p" = true /\ "p" = "p" /\ "n" = "n".
Proof.
  split; [reflexivity|].
  exact (proj1 (note_requests_tell_pairs_apart (client None None None)
                  (world quiet)) "p" "n" "p" "n" eq_refl eq_refl
           (or_introl eq_refl)).
Defined.

Lemma deleteDataset_tells_datasets_apart_run :
  healthcare_NewService (cloud (world quiet)) = (((), None), quiet) /\
  "p" = "p" /\ "us-central1" = "us-central1" /\ "d" = "d".
Proof.
  split; [reflexivity|].
  exact (deleteDataset_tells_datasets_apart 1 2 "p" "us-central1" "d"
           "p" "us-central1" "d" (world quiet) () quiet
           eq_refl eq_refl eq_refl eq_refl eq_refl eq_refl).
Defined.

(** On the broken cursor getDiscoveryInfo returns within two rounds, and
    not within one. *)
Lemma listing_returns_iff_cursor_stops_run :
  has_returned (getDiscoveryInfo 2 (client None None None) "gcr.io/p/img" "p"
                  (world broken_cursor)).1 <->
  stops_within () broken_cursor 2.
Proof.
  exact (proj2 (proj2 (listing_returns_iff_cursor_stops (client None None None)
                         2 (world broken_cursor)))
           "gcr.io/p/img" "p" () broken_cursor eq_refl).
Defined.

(** On the cursor without an end getOccurrencesForNote is still running
    after three rounds. *)
Lemma listing_runs_as_long_as_the_cursor_run :
  @never_stops Endless.libraries () 0%nat /\
  (getOccurrencesForNote 3 Endless.client "n" "p" Endless.world).1 = Running /\
  length (stdout (getOccurrencesForNote 3 Endless.client "n" "p" Endless.world).2)
    = 3%nat.
Proof.
  assert (@never_stops Endless.libraries () 0%nat) as Hn by (intros n; reflexivity).
  split; [exact Hn|].
  rewrite (proj1 (listing_runs_as_long_as_the_cursor Endless.client 3
                    Endless.world) "n" "p" () 0%nat eq_refl Hn).
  split; reflexivity.
Defined.

Lemma listing_count_is_an_int_run :
  (getOccurrencesForNote 3 (client None None None) "n" "p" (world short_cursor)).1
    = Returned (2, None).
Proof.
  assert ((2 < 3)%nat) as Hfuel by lia.
  exact (proj1 (proj2 (listing_count_is_an_int (client None None None) 3
                         (world short_cursor) [o1; o2] (with_cursor []) Hfuel))
           "n" "p" () short_cursor eq_refl short_cursor_yields).
Defined.

Lemma pubsub_samples_stop_without_client_run :
  occurrencePubsub "s" 10 "p" (world no_pubsub_client) =
    (Returned (-1, failing),
     {| stdout := []; written := []; calls := [Call_pubsub_NewClient "p"];
        acked := []; cloud := no_pubsub_client |}).
Proof.
  exact (proj1 (pubsub_samples_stop_without_client "s" 10 "p"
                  (world no_pubsub_client) "p" unavailable no_pubsub_client
                  eq_refl)).
Defined.

(** One message handled, then an error from [Receive]: the line and the
    acknowledgement are there, the count is not. *)
Lemma occurrencePubsub_loses_the_count_on_error_run :
  callbacks_return (session interrupted) (world interrupted) /\
  occurrencePubsub "s" 10 "p" (world interrupted) =
    (Returned (-1, failing),
     {| stdout := numbered_lines 1 [m1];
        written := [];
        calls := [Call_pubsub_NewClient "p";
                  Call_Receive {| pubsub.Subscription_client := "p";
                                  pubsub.Subscription_ID := "s" |} 10000000000];
        acked := [m1];
        cloud := interrupted |}).
Proof.
  assert (callbacks_return (session interrupted) (world interrupted)) as Hret
    by reflexivity.
  split; [exact Hret|].
  destruct (occurrencePubsub_loses_the_count_on_error "s" 10 "p"
              (world interrupted) "p" interrupted (session interrupted)
              interrupted unavailable eq_refl eq_refl Hret eq_refl)
    as (order & Hperm & Hrun).
  reflexivity.
Defined.

Lemma occurrencePubsub_timeout_in_nanoseconds_run :
  new_calls (world quiet) (occurrencePubsub "s" 30 "p" (world quiet)).2
    [Call_pubsub_NewClient "p";
     Call_Receive {| pubsub.Subscription_client := "p";
                     pubsub.Subscription_ID := "s" |} 30000000000].
Proof.
  assert (- 9223372036 <= 30 <= 9223372036) as Hrange by lia.
  exact (proj1 (occurrencePubsub_timeout_in_nanoseconds "s" 30 "p" (world quiet)
                  "p" quiet eq_refl Hrange)).
Defined.

(** A refused delete leaves the writer empty. *)
Lemma deleteDataset_reports_only_success_run :
  (deleteDataset 1 "p" "us-central1" "d" (world delete_refused)).1 <> None /\
  written (deleteDataset 1 "p" "us-central1" "d" (world delete_refused)).2 = [].
Proof.
  assert ((deleteDataset 1 "p" "us-central1" "d" (world delete_refused)).1 <> None)
    as Hfail by discriminate.
  split; [exact Hfail|].
  exact (proj2 (proj2 (deleteDataset_reports_only_success 1 "p" "us-central1" "d"
                         (world delete_refused))) Hfail).
Defined.

Lemma list_requests_tell_urls_apart_run :
  Spec.is_ascii "gcr.io\img" = true /\ "gcr.io\img" = "gcr.io\img".
Proof.
  split; [reflexivity|].
  exact (proj1 (list_requests_tell_urls_apart (client None None None) 1 2
                  (world quiet) "gcr.io\img" "p" "gcr.io\img" "p"
                  eq_refl eq_refl) eq_refl).
Defined.
